(** * RushEight backend: the users service and its controller

    A shallow embedding of [UsersService] (users.service.ts) and of
    [UsersController] (users.controller.ts), together with a model of the
    Prisma client they talk to, and the properties of ranking, search
    and deletion proved about them.

    Conventions of the embedding:
    - a JavaScript string is the list of its UTF-16 code units;
    - a JavaScript number is an integer, NaN, or some other non-integer
      value; integers are exact (the service only computes with counts
      and page numbers of a table, far below 2^53);
    - an [async] method is a computation in the monad [M], which threads
      the database and either returns a value or throws. *)

From Stdlib Require Import ZArith NArith List String Ascii Lia Permutation Sorted.
From Stdlib Require Import Decimal DecimalFacts DecimalPos.
From stdpp Require Import base list sorting.
Import ListNotations.

Local Open Scope Z_scope.

(** ** JavaScript values *)

Module Js.

(** Strings: sequences of UTF-16 code units. *)
Definition jsstring : Type := list N.

Definition lit (s : string) : jsstring :=
  map N_of_ascii (list_ascii_of_string s).

(** [s.length] *)
Definition str_length (s : jsstring) : Z := Z.of_nat (length s).

(** Numbers. [NonInt] stands for the values other than NaN that
    [Number.isInteger] rejects (fractions and the infinities). *)
Inductive number : Type :=
| Int (z : Z)
| NaN
| NonInt.

Definition Number_isInteger (n : number) : bool :=
  match n with Int _ => true | _ => false end.

(** Truthiness of a number: [0] and [NaN] are falsy. *)
Definition truthy (n : number) : bool :=
  match n with
  | Int z => negb (z =? 0)
  | NaN => false
  | NonInt => true
  end.

(** [a || b] on numbers. *)
Definition or_else (a b : number) : number :=
  if truthy a then a else b.

(** Arithmetic and comparisons.  The service computes only after
    [validatePageParams] has let two integers through; on anything else
    the operations below behave like NaN (absorbing, comparisons false). *)
Definition lift2 (f : Z -> Z -> Z) (a b : number) : number :=
  match a, b with
  | Int x, Int y => Int (f x y)
  | _, _ => NaN
  end.

Definition cmp2 (f : Z -> Z -> bool) (a b : number) : bool :=
  match a, b with
  | Int x, Int y => f x y
  | _, _ => false
  end.

Definition add := lift2 Z.add.
Definition sub := lift2 Z.sub.
Definition mul := lift2 Z.mul.
Definition lt := cmp2 Z.ltb.
Definition gt := cmp2 Z.gtb.
Definition strict_eq := cmp2 Z.eqb.

(** [Math.ceil(a / b)] for a count [a] and a positive integer [b]. *)
Definition ceil_div (a b : Z) : Z :=
  if a mod b =? 0 then a / b else a / b + 1.

Definition Math_ceil_div := lift2 ceil_div.

(** White space and line terminators, the code units that
    [String.prototype.trim] and [parseInt] strip. *)
Definition is_white_space (c : N) : bool :=
  let c := Z.of_N c in
  (c =? 9) || (c =? 10) || (c =? 11) || (c =? 12) || (c =? 13) ||
  (c =? 32) || (c =? 160) || (c =? 5760) ||
  ((8192 <=? c) && (c <=? 8202)) ||
  (c =? 8232) || (c =? 8233) || (c =? 8239) || (c =? 8287) ||
  (c =? 12288) || (c =? 65279).

Fixpoint trimStart (s : jsstring) : jsstring :=
  match s with
  | c :: s' => if is_white_space c then trimStart s' else s
  | [] => []
  end.

Definition trimEnd (s : jsstring) : jsstring :=
  rev (trimStart (rev s)).

Definition trim (s : jsstring) : jsstring :=
  trimEnd (trimStart s).

(** Decimal digits. *)
Definition is_digit (c : N) : bool :=
  (48 <=? Z.of_N c) && (Z.of_N c <=? 57).

Definition digit_value (c : N) : Z := Z.of_N c - 48.

(** The longest prefix of decimal digits, read with accumulator [acc];
    [seen] records whether any digit was read. *)
Fixpoint read_digits (s : jsstring) (acc : Z) (seen : bool) : option Z :=
  match s with
  | c :: s' =>
      if is_digit c then read_digits s' (10 * acc + digit_value c) true
      else if seen then Some acc else None
  | [] => if seen then Some acc else None
  end.

(** [parseInt(s, 10)]: [undefined] reads as the text "undefined", which
    has no digits.  Leading white space is skipped, one sign is accepted,
    then the longest run of digits is read; no digit gives NaN.  The
    value is exact here, as it is in JavaScript for digits that write an
    integer up to 2^53 in size; beyond, a double rounds, and beyond the
    range of doubles (over 308 digits) JavaScript gives Infinity. *)
Definition parseInt (s : option jsstring) : number :=
  match s with
  | None => NaN
  | Some s =>
      let s := trimStart s in
      let '(sign, s) :=
        match s with
        | c :: s' =>
            if (c =? 45)%N then (-1, s')
            else if (c =? 43)%N then (1, s')
            else (1, s)
        | [] => (1, s)
        end in
      match read_digits s 0 false with
      | Some n => Int (sign * n)
      | None => NaN
      end
  end.

(** [needle] occurs in [hay] as a contiguous block. *)
Fixpoint starts_with (needle hay : jsstring) : bool :=
  match needle, hay with
  | [], _ => true
  | a :: needle', b :: hay' => (a =? b)%N && starts_with needle' hay'
  | _ :: _, [] => false
  end.

Fixpoint includes (needle hay : jsstring) : bool :=
  starts_with needle hay ||
  match hay with
  | [] => false
  | _ :: hay' => includes needle hay'
  end.

(** [a >= b] *)
Definition ge := cmp2 Z.geb.

(** [Math.max(a, b)] and [Math.min(a, b)], on integers like the
    arithmetic above. *)
Definition Math_max := lift2 Z.max.
Definition Math_min := lift2 Z.min.

(** [isNaN(n)] for a number. *)
Definition isNaN (n : number) : bool :=
  match n with NaN => true | _ => false end.

(** The decimal digits of an unsigned decimal numeral. *)
Fixpoint digits (d : Decimal.uint) : jsstring :=
  match d with
  | Decimal.Nil => []
  | Decimal.D0 d' => 48%N :: digits d'
  | Decimal.D1 d' => 49%N :: digits d'
  | Decimal.D2 d' => 50%N :: digits d'
  | Decimal.D3 d' => 51%N :: digits d'
  | Decimal.D4 d' => 52%N :: digits d'
  | Decimal.D5 d' => 53%N :: digits d'
  | Decimal.D6 d' => 54%N :: digits d'
  | Decimal.D7 d' => 55%N :: digits d'
  | Decimal.D8 d' => 56%N :: digits d'
  | Decimal.D9 d' => 57%N :: digits d'
  end.

(** [String(n)] for an integer [n]: its decimal digits, after a minus
    sign when negative (the form JavaScript uses below 10^21). *)
Definition String_of_int (z : Z) : jsstring :=
  match Z.to_int z with
  | Decimal.Pos d => digits d
  | Decimal.Neg d => 45%N :: digits d
  end.

(** [s.split(sep)] for a separator of one code unit: the pieces between
    the separators; an empty string gives one empty piece. *)
Fixpoint split (sep : N) (s : jsstring) : list jsstring :=
  match s with
  | [] => [[]]
  | c :: s' =>
      if (c =? sep)%N then [] :: split sep s'
      else match split sep s' with
           | piece :: pieces => (c :: piece) :: pieces
           | [] => [[c]]
           end
  end.

(** [s.replace(/c/g, '')] for a code unit [c]: every [c] is dropped. *)
Definition remove_all (c : N) (s : jsstring) : jsstring :=
  List.filter (fun x => negb (x =? c)%N) s.

(** [a || b] on strings that may be [undefined]: [undefined] and the
    empty string are falsy. *)
Definition str_or_else (a : option jsstring) (b : jsstring) : jsstring :=
  match a with
  | Some (c :: a') => c :: a'
  | _ => b
  end.

End Js.
Import Js.

(** ** The User table *)

(** A row of the [User] table.  [level] is required; [job], [jobCode],
    [meso], [playTime] and [exp] may be null (the import script stores
    null for a cell that is absent or does not parse).  Timestamps are
    milliseconds since the epoch. *)
Record User : Type := mkUser {
  id : jsstring;
  userId : jsstring;
  nickname : jsstring;
  level : Z;
  job : option jsstring;
  jobCode : option Z;
  meso : option Z;
  playTime : option Z;
  exp : option Z;
  createdAt : Z;
  updatedAt : Z
}.

(** The column names, as they appear in a [select]. *)
Inductive Field : Type :=
| f_id | f_userId | f_nickname | f_level | f_job | f_jobCode
| f_meso | f_playTime | f_exp | f_createdAt | f_updatedAt.

#[export] Instance Field_eq_dec : EqDecision Field.
Proof. solve_decision. Defined.

(** The value of a property of a returned object. *)
Inductive Value : Type :=
| VString (s : jsstring)
| VNumber (z : Z)
| VDate (ms : Z)
| VNull.

Definition nullable {A} (inj : A -> Value) (o : option A) : Value :=
  match o with Some a => inj a | None => VNull end.

Definition column (f : Field) (u : User) : Value :=
  match f with
  | f_id => VString (id u)
  | f_userId => VString (userId u)
  | f_nickname => VString (nickname u)
  | f_level => VNumber (level u)
  | f_job => nullable VString (job u)
  | f_jobCode => nullable VNumber (jobCode u)
  | f_meso => nullable VNumber (meso u)
  | f_playTime => nullable VNumber (playTime u)
  | f_exp => nullable VNumber (exp u)
  | f_createdAt => VDate (createdAt u)
  | f_updatedAt => VDate (updatedAt u)
  end.

(** A returned record: the object Prisma builds for a row, with one
    property per selected column, in the order of the [select]. *)
Definition JsObject : Type := list (Field * Value).

Definition project (select : list Field) (u : User) : JsObject :=
  map (fun f => (f, column f u)) select.

Definition keys (o : JsObject) : list Field := map fst o.

(** [o.f]; [None] is [undefined]. *)
Fixpoint prop (f : Field) (o : JsObject) : option Value :=
  match o with
  | [] => None
  | (g, v) :: o' => if decide (f = g) then Some v else prop f o'
  end.

(** ** Exceptions *)

Inductive HttpStatus : Type :=
| OK | BAD_REQUEST | NOT_FOUND | INTERNAL_SERVER_ERROR.

(** A piece of a template literal: literal text or an interpolated
    number. *)
Inductive Fragment : Type :=
| Text (s : string)
| Numeral (n : number).

(** The first argument of [new HttpException(...)]: a message, or an
    object with [status], [error] and [message]. *)
Inductive HttpResponse : Type :=
| RespText (message : string)
| RespObject (status : HttpStatus) (error : string) (message : list Fragment).

Record HttpException : Type := mkHttpException {
  response : HttpResponse;
  status : HttpStatus
}.

(** The [code] property of an error object: absent, a string, or a
    value that is not a string. *)
Inductive CodeProp : Type :=
| CodeAbsent
| CodeString (s : string)
| CodeOther.

(** An error object that is not an [HttpException]; [detail] is its
    message. *)
Record JsError : Type := mkJsError {
  code : CodeProp;
  detail : string
}.

Inductive Thrown : Type :=
| ThrowHttp (e : HttpException)
| ThrowError (e : JsError).

(** ** The database behind the Prisma client *)

(** The arguments of a [findMany].  The service always orders by
    [[{ level: 'desc' }, { exp: 'desc' }]]; [fm_where], when present, is
    the keyword [k] of
    [OR: [{ userId: { contains: k, mode: 'insensitive' } },
          { nickname: { contains: k, mode: 'insensitive' } }]]. *)
Record FindManyArgs : Type := mkFindMany {
  fm_where : option jsstring;
  fm_skip : option number;
  fm_take : option number;
  fm_select : list Field
}.

Inductive StoreCall : Type :=
| CallCount
| CallFindMany (args : FindManyArgs)
| CallFindUnique (userId : jsstring)
| CallDelete (userId : jsstring).

(** The database as the service sees it: the rows of the [User] table in
    storage order, the case folding of the database's collation (used by
    case-insensitive matching), the calls that fail and with which error,
    and the calls issued so far.  The calls of one operation run one
    after the other, and nothing else touches the table in between. *)
Record Store : Type := mkStore {
  table : list User;
  lower : N -> N;
  faults : StoreCall -> option JsError;
  log : list StoreCall
}.

Definition with_table (t : list User) (st : Store) : Store :=
  {| table := t; lower := lower st; faults := faults st; log := log st |}.

Definition logged (c : StoreCall) (st : Store) : Store :=
  {| table := table st; lower := lower st; faults := faults st;
     log := log st ++ [c] |}.

(** ** Computations *)

Definition M (A : Type) : Type := Store -> (Thrown + A) * Store.

#[export] Instance M_ret : MRet M := fun A a st => (inr a, st).

#[export] Instance M_bind : MBind M := fun A B f m st =>
  match m st with
  | (inl t, st') => (inl t, st')
  | (inr a, st') => f a st'
  end.

Definition throw {A} (t : Thrown) : M A := fun st => (inl t, st).

(** [try { body } catch (error) { handler(error) }] *)
Definition try_catch {A} (body : M A) (handler : Thrown -> M A) : M A :=
  fun st =>
    match body st with
    | (inl t, st') => handler t st'
    | (inr a, st') => (inr a, st')
    end.

(** A call to the database: it is logged, then fails if the database
    says so, and otherwise answers from the table and updates it. *)
Definition store_call {A} (c : StoreCall) (answer : Store -> Thrown + A)
    (update : list User -> list User) : M A :=
  fun st =>
    let st' := logged c st in
    match faults st c with
    | Some e => (inl (ThrowError e), st')
    | None =>
        match answer st with
        | inl t => (inl t, st')
        | inr a => (inr a, with_table (update (table st)) st')
        end
    end.

(** ** The Prisma client, [prisma.user] *)

Module Prisma.

(** [ORDER BY "level" DESC, "exp" DESC].  [exp] is nullable, and the
    database (PostgreSQL) sorts NULL as larger than every value, so in
    descending order the rows with a null [exp] come first within their
    level.  [desc_leb a b] says that [a] may stand before [b]. *)
Definition desc_leb (a b : option Z) : bool :=
  match a, b with
  | None, _ => true
  | Some _, None => false
  | Some x, Some y => y <=? x
  end.

Definition ranked_leb (u v : User) : bool :=
  (level v <? level u) ||
  ((level u =? level v) && desc_leb (exp u) (exp v)).

Definition ranked (u v : User) : Prop := ranked_leb u v = true.

#[export] Instance ranked_dec u v : Decision (ranked u v).
Proof. unfold ranked. apply _. Defined.

(** [orderBy: [{ level: 'desc' }, { exp: 'desc' }]]; rows that agree on
    both keep some order that depends on how the table is stored. *)
Definition orderBy (rows : list User) : list User :=
  merge_sort ranked rows.

(** [text LIKE pattern] of PostgreSQL: in the pattern, [%] (37) stands
    for any run of characters, [_] (95) for any one character, and a
    backslash (92) makes the character after it stand for itself; a
    pattern that ends in a lone backslash is refused by the database,
    and no pattern of [contains] ends so, since [%] is put after it. *)
Fixpoint like (pattern : jsstring) : jsstring -> bool :=
  match pattern with
  | [] => fun text => match text with [] => true | _ :: _ => false end
  | c :: rest =>
      if (c =? 37)%N then
        fix run (text : jsstring) : bool :=
          like rest text
          || match text with
             | [] => false
             | _ :: text' => run text'
             end
      else if (c =? 95)%N then
        fun text =>
          match text with
          | [] => false
          | _ :: text' => like rest text'
          end
      else if (c =? 92)%N then
        match rest with
        | [] => fun _ => false
        | x :: rest' =>
            fun text =>
              match text with
              | [] => false
              | d :: text' => (d =? x)%N && like rest' text'
              end
        end
      else
        fun text =>
          match text with
          | [] => false
          | d :: text' => (d =? c)%N && like rest text'
          end
  end.

(** [{ contains: k, mode: 'insensitive' }] on a text column: the client
    sends [column ILIKE '%k%'], the keyword as it is, so that a [_] or
    a [%] of the keyword is read as a wildcard; the database folds the
    case of pattern and column and matches them with LIKE. *)
Definition contains_insensitive (fold : N -> N) (k s : jsstring) : bool :=
  like (37%N :: map fold k ++ [37%N]) (map fold s).

(** The [where] of the search: [userId] or [nickname] matches the
    keyword. *)
Definition matches (fold : N -> N) (k : jsstring) (u : User) : bool :=
  contains_insensitive fold k (userId u) ||
  contains_insensitive fold k (nickname u).

Definition where_rows (fold : N -> N) (w : option jsstring)
    (rows : list User) : list User :=
  match w with
  | Some k => List.filter (matches fold k) rows
  | None => rows
  end.

(** [skip] and [take] must be integers; the service passes no negative
    ones, and here they are refused like any other invalid argument. *)
Definition valid_amount (n : option number) : bool :=
  match n with
  | None => true
  | Some (Int z) => 0 <=? z
  | Some _ => false
  end.

Definition skip_rows (n : option number) (rows : list User) : list User :=
  match n with
  | Some (Int z) => drop (Z.to_nat z) rows
  | _ => rows
  end.

Definition take_rows (n : option number) (rows : list User) : list User :=
  match n with
  | Some (Int z) => take (Z.to_nat z) rows
  | _ => rows
  end.

(** The error of a call with invalid arguments
    ([PrismaClientValidationError], which has no [code]). *)
Definition validation_error : JsError :=
  {| code := CodeAbsent; detail := "Invalid invocation" |}.

(** The error of a delete that finds no row
    ([PrismaClientKnownRequestError], code P2025). *)
Definition record_not_found : JsError :=
  {| code := CodeString "P2025";
     detail := "An operation failed because it depends on one or more records that were required but not found." |}.

Definition select_rows (args : FindManyArgs) (st : Store) : list User :=
  take_rows (fm_take args)
    (skip_rows (fm_skip args)
       (orderBy (where_rows (lower st) (fm_where args) (table st)))).

(** [prisma.user.count()] *)
Definition count : M number :=
  store_call CallCount
    (fun st => inr (Int (Z.of_nat (length (table st)))))
    (fun t => t).

(** [prisma.user.findMany(args)] *)
Definition findMany (args : FindManyArgs) : M (list JsObject) :=
  store_call (CallFindMany args)
    (fun st =>
       if valid_amount (fm_skip args) && valid_amount (fm_take args)
       then inr (map (project (fm_select args)) (select_rows args st))
       else inl (ThrowError validation_error))
    (fun t => t).

Definition has_userId (k : jsstring) (u : User) : bool :=
  bool_decide (userId u = k).

(** [prisma.user.findUnique({ where: { userId }, select })]; [None] is
    the [null] of a missing row. *)
Definition findUnique (k : jsstring) (select : list Field)
    : M (option JsObject) :=
  store_call (CallFindUnique k)
    (fun st => inr (option_map (project select)
                      (List.find (has_userId k) (table st))))
    (fun t => t).

Definition all_columns : list Field :=
  [f_id; f_userId; f_nickname; f_level; f_job; f_jobCode; f_meso;
   f_playTime; f_exp; f_createdAt; f_updatedAt].

(** [prisma.user.delete({ where: { userId } })]: removes the row with
    that [userId] ([userId] carries a unique index, so there is at most
    one) and returns it; fails with P2025 if there is none. *)
Definition delete (k : jsstring) : M JsObject :=
  store_call (CallDelete k)
    (fun st =>
       match List.find (has_userId k) (table st) with
       | Some u => inr (project all_columns u)
       | None => inl (ThrowError record_not_found)
       end)
    (List.filter (fun u => negb (has_userId k u))).

End Prisma.

(** ** UsersService *)

Module UsersService.

Record RankedUsersResponse : Type := mkRanked {
  users : list JsObject;
  totalCount : number;
  currentPage : number;
  totalPages : number;
  hasMore : bool
}.

Module Search.
Record Response : Type := mk {
  searchResults : list JsObject;
  totalCount : number;
  keyword : jsstring
}.
End Search.

Module Delete.
Record Response : Type := mk {
  success : bool;
  message : jsstring
}.
End Delete.

Definition bad_request {A} (msg : string) : M A :=
  throw (ThrowHttp {| response := RespText msg; status := BAD_REQUEST |}).

(** [private validatePageParams(page, pageSize): void] *)
Definition validatePageParams (page pageSize : number) : M unit :=
  if negb (Number_isInteger page) || Js.lt page (Int 1) then
    bad_request "Page number must be a positive integer"
  else if negb (Number_isInteger pageSize) || Js.lt pageSize (Int 1)
          || Js.gt pageSize (Int 1000) then
    bad_request "Page size must be an integer between 1 and 1000"
  else mret tt.

(** The character class [/[<>{}[\]\\]/]: < > { } [ ] and the backslash. *)
Definition special_char (c : N) : bool :=
  let c := Z.of_N c in
  (c =? 60) || (c =? 62) || (c =? 123) || (c =? 125) ||
  (c =? 91) || (c =? 93) || (c =? 92).

(** [specialChars.test(s)] *)
Definition specialChars_test (s : jsstring) : bool := existsb special_char s.

(** [!s] for a string: only the empty string is falsy. *)
Definition str_falsy (s : jsstring) : bool :=
  match s with [] => true | _ => false end.

(** [private validateKeyword(keyword): void] *)
Definition validateKeyword (keyword : jsstring) : M unit :=
  if str_falsy keyword || (str_length (trim keyword) =? 0) then
    bad_request "Search keyword cannot be empty"
  else
    let trimmedKeyword := trim keyword in
    if str_length trimmedKeyword <? 2 then
      bad_request "Search keyword must be at least 2 characters long"
    else if str_length trimmedKeyword >? 30 then
      bad_request "Search keyword cannot exceed 30 characters"
    else if specialChars_test trimmedKeyword then
      bad_request "Search keyword contains invalid characters"
    else mret tt.

(** [private validateUserId(userId): void]; the argument is a string, so
    [typeof userId !== 'string'] is false. *)
Definition validateUserId (userId : jsstring) : M unit :=
  if str_falsy userId || false then
    bad_request "Invalid userId format"
  else if str_length userId >? 30 then
    bad_request "UserId cannot exceed 30 characters"
  else if specialChars_test userId then
    bad_request "UserId contains invalid characters"
  else mret tt.

(** [private buildRankedUsersResponse(...)] *)
Definition buildRankedUsersResponse (users : list JsObject)
    (totalCount currentPage totalPages : number) (hasMore : bool)
    : RankedUsersResponse :=
  {| users := users; totalCount := totalCount; currentPage := currentPage;
     totalPages := totalPages; hasMore := hasMore |}.

(** ['code' in error && typeof error.code === 'string'
     && error.code.startsWith('P')] *)
Definition has_prisma_code (e : JsError) : bool :=
  match code e with
  | CodeString (String c _) => Ascii.eqb c "P"
  | _ => false
  end.

Definition database_error : HttpException :=
  {| response := RespText "An error occurred while accessing the database";
     status := INTERNAL_SERVER_ERROR |}.

Definition unexpected_error : HttpException :=
  {| response := RespText "An unexpected error occurred";
     status := INTERNAL_SERVER_ERROR |}.

(** [private handleCommonErrors(error): never].  The two [console.error]
    calls write to the server's console only and are left out. *)
Definition handleCommonErrors {A} (error : Thrown) : M A :=
  match error with
  | ThrowHttp e => throw (ThrowHttp e)
  | ThrowError e =>
      if has_prisma_code e then throw (ThrowHttp database_error)
      else throw (ThrowHttp unexpected_error)
  end.

Definition ranked_select : list Field :=
  [f_id; f_userId; f_nickname; f_level; f_job; f_jobCode; f_meso;
   f_playTime; f_exp; f_createdAt; f_updatedAt].

Definition search_select : list Field :=
  [f_userId; f_nickname; f_level; f_job; f_jobCode; f_meso;
   f_playTime; f_exp; f_createdAt].

Definition page_not_found (page totalPages : number) : HttpException :=
  {| response :=
       RespObject NOT_FOUND "Page not found"
         [Text "Page "; Numeral page;
          Text " does not exist. Total pages: "; Numeral totalPages];
     status := NOT_FOUND |}.

(** [async getRankedUsers(page, pageSize)] *)
Definition getRankedUsers (page pageSize : number) : M RankedUsersResponse :=
  validatePageParams page pageSize ;;
  try_catch
    (totalUserCount ← Prisma.count;
     if strict_eq totalUserCount (Int 0) then
       mret (buildRankedUsersResponse [] (Int 0) page (Int 0) false)
     else
       let totalPages := Math_ceil_div totalUserCount pageSize in
       if Js.gt page totalPages then
         throw (ThrowHttp (page_not_found page totalPages))
       else
         let skip := Js.mul (Js.sub page (Int 1)) pageSize in
         users ← Prisma.findMany
           {| fm_where := None; fm_skip := Some skip;
              fm_take := Some pageSize; fm_select := ranked_select |};
         let hasMore := Js.lt (Js.add skip pageSize) totalUserCount in
         mret (buildRankedUsersResponse users totalUserCount page
                 totalPages hasMore))
    handleCommonErrors.

(** [async searchUsersByKeyword(keyword)] *)
Definition searchUsersByKeyword (keyword : jsstring) : M Search.Response :=
  validateKeyword keyword ;;
  try_catch
    (searchResults ← Prisma.findMany
       {| fm_where := Some (trim keyword); fm_skip := None;
          fm_take := Some (Int 50); fm_select := search_select |};
     mret {| Search.searchResults := searchResults;
             Search.totalCount := Int (Z.of_nat (length searchResults));
             Search.keyword := trim keyword |})
    handleCommonErrors.

(** [async deleteUserByUserId(userId)] *)
Definition deleteUserByUserId (userId : jsstring) : M Delete.Response :=
  validateUserId userId ;;
  try_catch
    (existingUser ← Prisma.findUnique userId [f_userId];
     match existingUser with
     | None =>
         throw (ThrowHttp {| response := RespText "User not found";
                             status := NOT_FOUND |})
     | Some _ =>
         Prisma.delete userId ;;
         mret {| Delete.success := true;
                 Delete.message :=
                   lit "User with userId " ++ userId
                   ++ lit " has been deleted." |}
     end)
    handleCommonErrors.

End UsersService.

(** ** UsersController *)

Module UsersController.

(** [@Get('ranked') async getRanked(page, pageSize)]; a query parameter
    that is missing is [undefined], here [None]. *)
Definition getRanked (page pageSize : option jsstring)
    : M UsersService.RankedUsersResponse :=
  let pageNum := or_else (parseInt page) (Int 1) in
  let pageSizeNum := or_else (parseInt pageSize) (Int 10) in
  UsersService.getRankedUsers pageNum pageSizeNum.

(** [@Get('search') async search(keyword)] *)
Definition search (keyword : jsstring) : M UsersService.Search.Response :=
  UsersService.searchUsersByKeyword keyword.

(** [@Delete(':userId') async deleteUser(userId)] *)
Definition deleteUser (userId : jsstring) : M UsersService.Delete.Response :=
  UsersService.deleteUserByUserId userId.

End UsersController.

(** ** The client of the API (lib/api/users.ts) *)

Module Api.

(** [fetchUsers(page, pageSize)] as its request reaches the controller:
    the two numbers of [params] travel in the query string, each written
    with [String]. *)
Definition fetchUsers (page pageSize : Z) : M UsersService.RankedUsersResponse :=
  UsersController.getRanked
    (Some (String_of_int page)) (Some (String_of_int pageSize)).

End Api.

(** ** The table component of the front end (data-table.tsx) *)

Module DataTable.

(** [const totalPages = Math.ceil(totalCount / pageSize)] *)
Definition totalPages (totalCount pageSize : number) : number :=
  Math_ceil_div totalCount pageSize.

(** [const getRankNumber = (index) =>
      (currentPage - 1) * pageSize + index + 1] *)
Definition getRankNumber (currentPage pageSize index : number) : number :=
  Js.add (Js.add (Js.mul (Js.sub currentPage (Int 1)) pageSize) index) (Int 1).

(** [handleGoToPage] of [Pagination]: the page it passes to
    [onPageChange], given the text of the page input. *)
Definition handleGoToPage (localPageInput : jsstring) (totalPages : number)
    : number :=
  let newPage := or_else (parseInt (Some localPageInput)) (Int 1) in
  let newPage := Math_max (Int 1) (Math_min newPage totalPages) in
  newPage.

(** The controls of [Pagination] that change the page: the two arrow
    buttons and Go (or Enter in the page input). *)
Inductive Control : Type :=
| Previous
| Next
| Go.

(** [disabled={currentPage === 1}] and
    [disabled={currentPage >= totalPages}]; Go is never disabled. *)
Definition disabled (c : Control) (currentPage totalPages : number) : bool :=
  match c with
  | Previous => strict_eq currentPage (Int 1)
  | Next => Js.ge currentPage totalPages
  | Go => false
  end.

(** The page a control passes to [onPageChange]; a disabled button
    passes nothing. *)
Definition onClick (c : Control) (currentPage totalPages : number)
    (localPageInput : jsstring) : option number :=
  if disabled c currentPage totalPages then None
  else
    match c with
    | Previous => Some (Js.sub currentPage (Int 1))
    | Next => Some (Js.add currentPage (Int 1))
    | Go => Some (handleGoToPage localPageInput totalPages)
    end.

End DataTable.

(** ** The import script (import-users.ts) *)

Module ImportUsers.

(** A cell of a sheet row: [string | number | undefined]. *)
Inductive Cell : Type :=
| Undefined
| Str (s : jsstring)
| Num (n : number).

(** [const parseNumber = (value) => ...]; [None] is [null]. *)
Definition parseNumber (value : Cell) : option number :=
  match value with
  | Undefined => None
  | Str [] => None
  | Str s =>
      let cleanValue := remove_all 44%N s in
      let parsed := parseInt (Some cleanValue) in
      if isNaN parsed then None else Some parsed
  | Num n =>
      let num := n in
      if isNaN num then None else Some num
  end.

(** [x || 1] for [x] a number or [null]. *)
Definition or_one (x : option number) : number :=
  match x with
  | Some n => or_else n (Int 1)
  | None => Int 1
  end.

(** [level: parseNumber(row.level) || 1] *)
Definition level_of (cell : Cell) : number := or_one (parseNumber cell).

End ImportUsers.

(** ** Configuration (configuration.ts) and start-up (main.ts) *)

Module Configuration.

(** The variables of [process.env] that are read; [None] is a variable
    that is not set. *)
Record Env : Type := mkEnv {
  env_CORS_ORIGIN : option jsstring;
  env_CORS_CREDENTIALS : option jsstring;
  env_PORT : option jsstring;
  env_DATABASE_URL : option jsstring
}.

Record Config : Type := mkConfig {
  CORS_ORIGIN : jsstring;
  CORS_CREDENTIALS : bool;
  PORT : number;
  DATABASE_URL : option jsstring
}.

(** [s === 'true'] for a variable of the environment. *)
Definition is_true_text (s : option jsstring) : bool :=
  match s with
  | Some t => bool_decide (t = lit "true")
  | None => false
  end.

(** [export default () => ({ ... })] *)
Definition configuration (env : Env) : Config :=
  {| CORS_ORIGIN :=
       str_or_else (env_CORS_ORIGIN env) (lit "http://localhost:3001");
     CORS_CREDENTIALS := is_true_text (env_CORS_CREDENTIALS env) || true;
     PORT := or_else (parseInt (env_PORT env)) (Int 3000);
     DATABASE_URL := env_DATABASE_URL env |}.

End Configuration.

Module Main.

(** [configService.get('CORS_ORIGIN').split(',')
      .map(origin => origin.trim())] of [bootstrap], as a function of
    the configured text. *)
Definition corsOrigins (origins : jsstring) : list jsstring :=
  map trim (split 44%N origins).

End Main.

(** * The vocabulary of the properties *)

Import UsersService.

(** ** Failures *)

(** The four kinds of failure, read off the exception that reaches the
    caller: 400 is an invalid argument, 404 is not found, and of the two
    500s the one with the database message is the storage failure. *)
Inductive ErrorKind : Type :=
| InvalidArgument | NotFound | StorageUnavailable | Internal.

Definition kind_of (e : HttpException) : option ErrorKind :=
  match status e with
  | OK => None
  | BAD_REQUEST => Some InvalidArgument
  | NOT_FOUND => Some NotFound
  | INTERNAL_SERVER_ERROR =>
      match response e with
      | RespText m =>
          if String.eqb m "An error occurred while accessing the database"
          then Some StorageUnavailable else Some Internal
      | RespObject _ _ _ => Some Internal
      end
  end.

(** The outcome [r] of an operation is a failure of kind [k]. *)
Definition fails_with {A} (k : ErrorKind) (r : (Thrown + A) * Store) : Prop :=
  exists e, fst r = inl (ThrowHttp e) /\ kind_of e = Some k.

(** The calls an operation issued, given the store before and after. *)
Definition issued (before after : Store) (calls : list StoreCall) : Prop :=
  log after = log before ++ calls.

(** What [handleCommonErrors] makes of an error of the database. *)
Definition reclassified (e : JsError) : HttpException :=
  if has_prisma_code e then database_error else unexpected_error.


(** ** Page parameters *)

Definition positive_integer (n : number) : Prop :=
  exists z, n = Int z /\ 1 <= z.

Definition page_size_in_range (n : number) : Prop :=
  exists z, n = Int z /\ 1 <= z <= 1000.

Definition page_error : HttpException :=
  {| response := RespText "Page number must be a positive integer";
     status := BAD_REQUEST |}.

Definition page_size_error : HttpException :=
  {| response := RespText "Page size must be an integer between 1 and 1000";
     status := BAD_REQUEST |}.



(** The query of page [page], once both parameters are integers. *)
Definition ranked_args (page pageSize : Z) : FindManyArgs :=
  {| fm_where := None; fm_skip := Some (Int ((page - 1) * pageSize));
     fm_take := Some (Int pageSize); fm_select := ranked_select |}.

(** The rows of page [page]: the table in ranking order, without the
    first [(page - 1) * pageSize] rows, cut after [pageSize] rows. *)
Definition page_rows (page pageSize : Z) (st : Store) : list User :=
  take (Z.to_nat pageSize)
    (drop (Z.to_nat ((page - 1) * pageSize)) (Prisma.orderBy (table st))).

(** ** Keywords and identifiers *)

(** The characters < > { } [ ] and backslash. *)
Definition forbidden_chars : list N := [60; 62; 123; 125; 91; 93; 92]%N.

Definition has_forbidden (s : jsstring) : Prop :=
  exists c, In c s /\ In c forbidden_chars.

Definition keyword_message (reason : string) : HttpException :=
  {| response := RespText reason; status := BAD_REQUEST |}.

(** The rules of the keyword in the order they are checked, each with
    its message. *)
Definition keyword_rules : list ((jsstring -> bool) * string) :=
  [ (fun t => str_length t =? 0, "Search keyword cannot be empty"%string);
    (fun t => str_length t <? 2,
     "Search keyword must be at least 2 characters long"%string);
    (fun t => str_length t >? 30,
     "Search keyword cannot exceed 30 characters"%string);
    (specialChars_test, "Search keyword contains invalid characters"%string) ].

(** The rules of the identifier, in the same way. *)
Definition userId_rules : list ((jsstring -> bool) * string) :=
  [ (str_falsy, "Invalid userId format"%string);
    (fun k => str_length k >? 30, "UserId cannot exceed 30 characters"%string);
    (specialChars_test, "UserId contains invalid characters"%string) ].

(** The message of the first rule that [t] breaks; [None] when it passes
    them all. *)
Definition first_failing (rules : list ((jsstring -> bool) * string))
    (t : jsstring) : option string :=
  option_map snd (List.find (fun r => fst r t) rules).

Definition valid_userId (k : jsstring) : Prop :=
  k <> [] /\ str_length k <= 30 /\ ~ has_forbidden k.

(** ** Search *)

Definition search_args (keyword : jsstring) : FindManyArgs :=
  {| fm_where := Some (trim keyword); fm_skip := None;
     fm_take := Some (Int 50); fm_select := search_select |}.

(** The rows a search returns: the matching rows in ranking order, cut
    after 50. *)
Definition search_rows (keyword : jsstring) (st : Store) : list User :=
  take 50 (Prisma.orderBy
             (List.filter (Prisma.matches (lower st) (trim keyword)) (table st))).


(** [Like pattern text]: the text matches the pattern, where [%] (37)
    stands for any run of characters, [_] (95) for any one character,
    and a backslash (92) before a character makes it stand for itself. *)
Inductive Like : jsstring -> jsstring -> Prop :=
| Like_end : Like [] []
| Like_run rest skipped text :
    Like rest text -> Like (37%N :: rest) (skipped ++ text)
| Like_one rest d text :
    Like rest text -> Like (95%N :: rest) (d :: text)
| Like_escaped x rest text :
    Like rest text -> Like (92%N :: x :: rest) (x :: text)
| Like_same c rest text :
    c <> 37%N -> c <> 95%N -> c <> 92%N ->
    Like rest text -> Like (c :: rest) (c :: text).

(** [s] matches [%k%] once both are folded by the collation: some block
    of [s] matches [k], wildcards included. *)
Definition contains_like (fold : N -> N) (k s : jsstring) : Prop :=
  Like (37%N :: map fold k ++ [37%N]) (map fold s).


(** The identifier or the display name of [u] matches the keyword. *)
Definition is_match (st : Store) (k : jsstring) (u : User) : Prop :=
  contains_like (lower st) k (userId u)
  \/ contains_like (lower st) k (nickname u).


(** The rows that the [where] of the search lets through. *)
Definition matching_rows (st : Store) (k : jsstring) : list User :=
  List.filter (Prisma.matches (lower st) k) (table st).

(** ** Deletion *)

Definition user_not_found : HttpException :=
  {| response := RespText "User not found"; status := NOT_FOUND |}.

Definition deleted_message (k : jsstring) : jsstring :=
  lit "User with userId " ++ k ++ lit " has been deleted.".

(** The table has the unique index on [userId]. *)
Definition unique_userIds (st : Store) : Prop :=
  List.NoDup (map userId (table st)).

(** ** Requests and replies *)

(** The three operations of the service under one type. *)
Inductive Request : Type :=
| ListRanked (page pageSize : number)
| SearchKeyword (keyword : jsstring)
| DeleteUser (userId : jsstring).

Inductive Reply : Type :=
| RankedReply (r : RankedUsersResponse)
| SearchReply (r : Search.Response)
| DeleteReply (r : Delete.Response).

Definition reply {A} (wrap : A -> Reply) (m : M A) : M Reply :=
  fun st => match m st with
            | (inl t, st') => (inl t, st')
            | (inr a, st') => (inr (wrap a), st')
            end.

Definition serve (q : Request) : M Reply :=
  match q with
  | ListRanked page pageSize => reply RankedReply (getRankedUsers page pageSize)
  | SearchKeyword keyword => reply SearchReply (searchUsersByKeyword keyword)
  | DeleteUser userId => reply DeleteReply (deleteUserByUserId userId)
  end.

(** The records a reply carries. *)
Definition records (r : Reply) : list JsObject :=
  match r with
  | RankedReply r => users r
  | SearchReply r => Search.searchResults r
  | DeleteReply _ => []
  end.



(** ** Order and shape of the returned records *)

(** The number that JavaScript compares when a property holds a number
    or null: null counts as 0. *)
Definition to_number (v : option Value) : option Z :=
  match v with
  | Some (VNumber z) => Some z
  | Some VNull => Some 0
  | _ => None
  end.

(** The order in the words [r1.level > r2.level], or the levels are
    equal and [r1.exp >= r2.exp]. *)
Definition claimed_order (r1 r2 : JsObject) : Prop :=
  exists l1 l2 e1 e2,
    to_number (prop f_level r1) = Some l1
    /\ to_number (prop f_level r2) = Some l2
    /\ to_number (prop f_exp r1) = Some e1
    /\ to_number (prop f_exp r2) = Some e2
    /\ (l1 > l2 \/ (l1 = l2 /\ e1 >= e2)).

(** The order of the database: a higher level first, and at equal level
    a record without experience first, then by experience downwards. *)
Definition store_order (r1 r2 : JsObject) : Prop :=
  exists l1 l2,
    prop f_level r1 = Some (VNumber l1)
    /\ prop f_level r2 = Some (VNumber l2)
    /\ (l1 > l2
        \/ (l1 = l2
            /\ (prop f_exp r1 = Some VNull
                \/ exists e1 e2,
                     prop f_exp r1 = Some (VNumber e1)
                     /\ prop f_exp r2 = Some (VNumber e2)
                     /\ e1 >= e2))).

Definition search_shape : list Field :=
  [f_userId; f_nickname; f_level; f_job; f_jobCode; f_meso;
   f_playTime; f_exp; f_createdAt].

(** [o] is the record of a row of the table with exactly the properties
    [shape], each holding the row's value of that column. *)
Definition record_of (st : Store) (shape : list Field) (o : JsObject) : Prop :=
  keys o = shape
  /\ exists u, In u (table st) /\ forall f, In f shape -> prop f o = Some (column f u).

(** ** The controller's query parameters *)

(** What the controller hands to the service for the query string [q]
    whose default is [default]. *)
Definition handed (q : option jsstring) (default : Z) (n : number) : Prop :=
  (q = None -> n = Int default)
  /\ (parseInt q = NaN -> n = Int default)
  /\ (parseInt q = Int 0 -> n = Int default)
  /\ (forall z, parseInt q = Int z -> z <> 0 -> n = Int z).

(** ** Sample stores *)

Definition sample_user (name : string) (lvl : Z) (xp : option Z) : User :=
  {| id := lit name; userId := lit name; nickname := lit name; level := lvl;
     job := None; jobCode := None; meso := None; playTime := None;
     exp := xp; createdAt := 0; updatedAt := 0 |}.

(** The case folding of an ASCII collation. *)
Definition ascii_lower (c : N) : N :=
  if ((65 <=? c) && (c <=? 90))%N then (c + 32)%N else c.

(** A store that answers every call. *)
Definition sample_store (rows : list User) : Store :=
  {| table := rows; lower := ascii_lower; faults := fun _ => None; log := [] |}.

Definition three_rows : list User :=
  [sample_user "Ann" 50 (Some 100); sample_user "Bob" 50 (Some 200);
   sample_user "Cid" 40 (Some 999)].

(** Two rows of one level, the first without experience. *)
Definition null_exp_rows : list User :=
  [sample_user "A" 50 None; sample_user "B" 50 (Some 100)].




(** ** Further vocabulary *)

(** The records of page [page] as the caller receives them; nothing when
    the call fails. *)
Definition listed (page pageSize : Z) (st : Store) : list JsObject :=
  match fst (getRankedUsers (Int page) (Int pageSize) st) with
  | inr r => users r
  | inl _ => []
  end.

(** What a request may ask of the store, in the order asked. *)
Definition allowed_calls (q : Request) (st : Store) (calls : list StoreCall)
    : Prop :=
  match q with
  | ListRanked _ _ =>
      calls = [] \/ calls = [CallCount]
      \/ exists args, calls = [CallCount; CallFindMany args]
  | SearchKeyword keyword =>
      calls = [] \/ calls = [CallFindMany (search_args keyword)]
  | DeleteUser k =>
      calls = [] \/ calls = [CallFindUnique k]
      \/ (calls = [CallFindUnique k; CallDelete k]
          /\ exists u, In u (table st) /\ userId u = k)
  end.

(** The records a search returns to the caller; nothing when it fails. *)
Definition found (keyword : jsstring) (st : Store) : list JsObject :=
  match fst (searchUsersByKeyword keyword st) with
  | inr r => Search.searchResults r
  | inl _ => []
  end.

(** The table without the rows of identifier [k]. *)
Definition without (k : jsstring) (rows : list User) : list User :=
  List.filter (fun u => negb (Prisma.has_userId k u)) rows.

(** The value of a run of decimal digits read after [acc]. *)
Fixpoint uint_acc (d : Decimal.uint) (acc : Z) : Z :=
  match d with
  | Decimal.Nil => acc
  | Decimal.D0 d' => uint_acc d' (10 * acc + 0)
  | Decimal.D1 d' => uint_acc d' (10 * acc + 1)
  | Decimal.D2 d' => uint_acc d' (10 * acc + 2)
  | Decimal.D3 d' => uint_acc d' (10 * acc + 3)
  | Decimal.D4 d' => uint_acc d' (10 * acc + 4)
  | Decimal.D5 d' => uint_acc d' (10 * acc + 5)
  | Decimal.D6 d' => uint_acc d' (10 * acc + 6)
  | Decimal.D7 d' => uint_acc d' (10 * acc + 7)
  | Decimal.D8 d' => uint_acc d' (10 * acc + 8)
  | Decimal.D9 d' => uint_acc d' (10 * acc + 9)
  end.

(** A string without white space at either end. *)
Definition tidy (s : jsstring) : Prop :=
  trimStart s = s /\ trimEnd s = s.

(** A string of white space only. *)
Definition blank (s : jsstring) : Prop :=
  Forall (fun c => is_white_space c = true) s.

(** [pieces.join(',')] *)
Fixpoint joined (pieces : list jsstring) : jsstring :=
  match pieces with
  | [] => []
  | [piece] => piece
  | piece :: rest => piece ++ 44%N :: joined rest
  end.

(** [piece] is [origin] with white space around it. *)
Definition padded (piece origin : jsstring) : Prop :=
  exists before after,
    piece = before ++ origin ++ after /\ blank before /\ blank after.

(** The keys of the ranking of a row. *)
Definition rank_key (u : User) : Z * option Z := (level u, exp u).

(** No two rows agree on both keys of the ranking, so that the ranking
    leaves nothing to how the table is stored. *)
Definition distinct_ranks (rows : list User) : Prop :=
  List.NoDup (map rank_key rows).

(** [Number.MAX_SAFE_INTEGER], 2^53 - 1: up to it in size every integer
    is a number of JavaScript, so that reading digits loses nothing. *)
Definition MAX_SAFE_INTEGER : Z := 9007199254740991.

(** The digits of [q], if it has any, write an integer of that range. *)
Definition safe_digits (q : option jsstring) : Prop :=
  forall z, parseInt q = Int z -> Z.abs z <= MAX_SAFE_INTEGER.

(** * Properties *)

(** ** Stores and calls *)

Lemma with_table_same st : with_table (table st) st = st.
Proof. destruct st; reflexivity. Qed.

Lemma bind_run {A B} (m : M A) (f : A -> M B) st :
  (m ≫= f) st =
  match m st with
  | (inl t, st') => (inl t, st')
  | (inr a, st') => f a st'
  end.
Proof. reflexivity. Qed.

Lemma store_call_fault {A} c (answer : Store -> Thrown + A) update st e :
  faults st c = Some e ->
  store_call c answer update st = (inl (ThrowError e), logged c st).
Proof. intros H. unfold store_call. rewrite H. reflexivity. Qed.

Lemma store_call_read {A} c (answer : Store -> Thrown + A) st a :
  faults st c = None -> answer st = inr a ->
  store_call c answer (fun t => t) st = (inr a, logged c st).
Proof.
  intros H Ha. unfold store_call. rewrite H, Ha. reflexivity.
Qed.

Lemma count_run st :
  Prisma.count st =
  match faults st CallCount with
  | Some e => (inl (ThrowError e), logged CallCount st)
  | None => (inr (Int (Z.of_nat (length (table st)))), logged CallCount st)
  end.
Proof.
  unfold Prisma.count. destruct (faults st CallCount) eqn:E.
  - apply store_call_fault; assumption.
  - apply store_call_read; [assumption | reflexivity].
Qed.

Lemma findMany_run args st :
  Prisma.findMany args st =
  match faults st (CallFindMany args) with
  | Some e => (inl (ThrowError e), logged (CallFindMany args) st)
  | None =>
      if Prisma.valid_amount (fm_skip args) && Prisma.valid_amount (fm_take args)
      then (inr (map (project (fm_select args)) (Prisma.select_rows args st)),
            logged (CallFindMany args) st)
      else (inl (ThrowError Prisma.validation_error),
            logged (CallFindMany args) st)
  end.
Proof.
  unfold Prisma.findMany. destruct (faults st (CallFindMany args)) eqn:E.
  - apply store_call_fault; assumption.
  - destruct (Prisma.valid_amount (fm_skip args)
              && Prisma.valid_amount (fm_take args)) eqn:V.
    + apply store_call_read; [assumption | reflexivity].
    + unfold store_call. rewrite E. reflexivity.
Qed.

(** ** Validation of the page parameters *)

Lemma validatePageParams_ok a b st :
  1 <= a -> 1 <= b <= 1000 ->
  validatePageParams (Int a) (Int b) st = (inr tt, st).
Proof.
  intros Ha Hb. unfold validatePageParams. simpl.
  replace (a <? 1) with false by (symmetry; apply Z.ltb_ge; lia).
  replace (b <? 1) with false by (symmetry; apply Z.ltb_ge; lia).
  replace (b >? 1000) with false by (symmetry; rewrite Z.gtb_ltb; apply Z.ltb_ge; lia).
  reflexivity.
Qed.

Lemma validatePageParams_page page pageSize st :
  ~ positive_integer page ->
  validatePageParams page pageSize st = (inl (ThrowHttp page_error), st).
Proof.
  intros H. unfold validatePageParams.
  destruct page as [a | |]; simpl; try reflexivity.
  destruct (a <? 1) eqn:E; [reflexivity |].
  exfalso. apply H. exists a. split; [reflexivity |].
  apply Z.ltb_ge in E. lia.
Qed.

Lemma validatePageParams_size page pageSize st :
  positive_integer page -> ~ page_size_in_range pageSize ->
  validatePageParams page pageSize st = (inl (ThrowHttp page_size_error), st).
Proof.
  intros (a & -> & Ha) H. unfold validatePageParams. simpl.
  replace (a <? 1) with false by (symmetry; apply Z.ltb_ge; lia).
  destruct pageSize as [b | |]; simpl; try reflexivity.
  destruct (b <? 1) eqn:E1; [reflexivity |].
  destruct (b >? 1000) eqn:E2; [reflexivity |].
  exfalso. apply H. exists b. split; [reflexivity |].
  apply Z.ltb_ge in E1. rewrite Z.gtb_ltb in E2. apply Z.ltb_ge in E2. lia.
Qed.

Lemma positive_integer_dec n : {positive_integer n} + {~ positive_integer n}.
Proof.
  destruct n as [a | |].
  - destruct (Z_le_dec 1 a) as [H | H].
    + left. exists a. auto.
    + right. intros (z & Hz & Hle). injection Hz as <-. lia.
  - right. intros (z & Hz & _). discriminate.
  - right. intros (z & Hz & _). discriminate.
Qed.

Lemma page_size_in_range_dec n :
  {page_size_in_range n} + {~ page_size_in_range n}.
Proof.
  destruct n as [b | |].
  - destruct (Z_le_dec 1 b) as [H1 | H1]; [destruct (Z_le_dec b 1000) as [H2 | H2] |].
    + left. exists b. auto.
    + right. intros (z & Hz & Hle). injection Hz as <-. lia.
    + right. intros (z & Hz & Hle). injection Hz as <-. lia.
  - right. intros (z & Hz & _). discriminate.
  - right. intros (z & Hz & _). discriminate.
Qed.

(** ** Symbolic run of [getRankedUsers] on valid parameters *)

Lemma handleCommonErrors_error {A} e st :
  handleCommonErrors (A := A) (ThrowError e) st
  = (inl (ThrowHttp (reclassified e)), st).
Proof.
  unfold handleCommonErrors, reclassified.
  destruct (has_prisma_code e); reflexivity.
Qed.

Lemma getRankedUsers_run page pageSize st :
  1 <= page -> 1 <= pageSize <= 1000 ->
  getRankedUsers (Int page) (Int pageSize) st =
  let st1 := logged CallCount st in
  match faults st CallCount with
  | Some e => (inl (ThrowHttp (reclassified e)), st1)
  | None =>
      let n := Z.of_nat (length (table st)) in
      if n =? 0 then
        (inr (buildRankedUsersResponse [] (Int 0) (Int page) (Int 0) false), st1)
      else if page >? ceil_div n pageSize then
        (inl (ThrowHttp (page_not_found (Int page) (Int (ceil_div n pageSize)))),
         st1)
      else
        let args := ranked_args page pageSize in
        let st2 := logged (CallFindMany args) st1 in
        match faults st (CallFindMany args) with
        | Some e => (inl (ThrowHttp (reclassified e)), st2)
        | None =>
            (inr (buildRankedUsersResponse
                    (map (project ranked_select) (Prisma.select_rows args st))
                    (Int n) (Int page) (Int (ceil_div n pageSize))
                    ((page - 1) * pageSize + pageSize <? n)), st2)
        end
  end.
Proof.
  intros Hp Hs. unfold getRankedUsers.
  rewrite bind_run, validatePageParams_ok by assumption.
  unfold try_catch. rewrite bind_run, count_run.
  destruct (faults st CallCount) as [e |] eqn:Ec.
  { apply handleCommonErrors_error. }
  unfold strict_eq, Js.gt, Js.mul, Js.sub, Js.add, Js.lt, Math_ceil_div,
    lift2, cmp2.
  cbv zeta.
  destruct (Z.of_nat (length (table st)) =? 0) eqn:En; [reflexivity |].
  destruct (page >? ceil_div (Z.of_nat (length (table st))) pageSize) eqn:Eg;
    [reflexivity |].
  rewrite bind_run. fold (ranked_args page pageSize).
  rewrite findMany_run.
  change (faults (logged CallCount st)) with (faults st).
  destruct (faults st (CallFindMany (ranked_args page pageSize))) as [e |] eqn:Ef.
  { apply handleCommonErrors_error. }
  assert (Hv : Prisma.valid_amount (fm_skip (ranked_args page pageSize))
               && Prisma.valid_amount (fm_take (ranked_args page pageSize)) = true).
  { simpl. apply andb_true_intro. split; apply Z.leb_le; nia. }
  rewrite Hv. reflexivity.
Qed.

Lemma kind_of_reclassified e :
  kind_of (reclassified e)
  = Some (if has_prisma_code e then StorageUnavailable else Internal).
Proof. unfold reclassified. destruct (has_prisma_code e); reflexivity. Qed.

Lemma reclassified_not_argument e :
  kind_of (reclassified e) <> Some InvalidArgument.
Proof.
  rewrite kind_of_reclassified. destruct (has_prisma_code e); discriminate.
Qed.

Lemma getRankedUsers_rejects page pageSize st :
  ~ positive_integer page \/ ~ page_size_in_range pageSize ->
  exists e,
    getRankedUsers page pageSize st = (inl (ThrowHttp e), st)
    /\ kind_of e = Some InvalidArgument
    /\ (e = page_error \/ e = page_size_error).
Proof.
  intros H. unfold getRankedUsers. rewrite bind_run.
  destruct (positive_integer_dec page) as [Hp | Hp].
  - destruct H as [H | H]; [contradiction |].
    rewrite validatePageParams_size by assumption.
    exists page_size_error. auto.
  - rewrite validatePageParams_page by assumption.
    exists page_error. auto.
Qed.

Lemma getRankedUsers_accepts page pageSize st :
  1 <= page -> 1 <= pageSize <= 1000 ->
  ~ fails_with InvalidArgument (getRankedUsers (Int page) (Int pageSize) st).
Proof.
  intros Hp Hs (e & He & Hk). revert He.
  rewrite getRankedUsers_run by assumption. cbv zeta.
  destruct (faults st CallCount) as [e1 |].
  { simpl. intros [= <-]. exact (reclassified_not_argument _ Hk). }
  destruct (_ =? 0); [discriminate |].
  destruct (page >? _).
  { simpl. intros [= <-]. discriminate. }
  destruct (faults st _) as [e2 |]; [| discriminate].
  simpl. intros [= <-]. exact (reclassified_not_argument _ Hk).
Qed.

(** C4. Listing fails with InvalidArgument exactly when [page] is not a
    positive integer or [pageSize] is not an integer between 1 and 1000;
    it then fails before any access to the store (the store, and with it
    the log of calls, is unchanged).  In particular a page size of 0 and
    one of 1001 are rejected, not clamped. *)
Theorem getRankedUsers_invalid_argument :
  forall (page pageSize : number) (st : Store),
    (fails_with InvalidArgument (getRankedUsers page pageSize st)
     <-> ~ positive_integer page \/ ~ page_size_in_range pageSize)
    /\ (fails_with InvalidArgument (getRankedUsers page pageSize st) ->
        snd (getRankedUsers page pageSize st) = st)
    /\ fails_with InvalidArgument (getRankedUsers page (Int 0) st)
    /\ fails_with InvalidArgument (getRankedUsers page (Int 1001) st).
Proof.
  intros page pageSize st.
  assert (Hiff : fails_with InvalidArgument (getRankedUsers page pageSize st)
                 <-> ~ positive_integer page \/ ~ page_size_in_range pageSize).
  { split.
    - intros Hf.
      destruct (positive_integer_dec page) as [(a & -> & Ha) | Hp]; [| auto].
      destruct (page_size_in_range_dec pageSize) as [(b & -> & Hb) | Hs]; [| auto].
      exfalso. exact (getRankedUsers_accepts a b st Ha Hb Hf).
    - intros H. destruct (getRankedUsers_rejects page pageSize st H)
        as (e & He & Hk & _).
      exists e. rewrite He. auto. }
  split; [exact Hiff |]. split.
  - intros Hf. apply Hiff in Hf.
    destruct (getRankedUsers_rejects page pageSize st Hf) as (e & He & _).
    rewrite He. reflexivity.
  - assert (Hbad : forall z, ~ 1 <= z <= 1000 ->
                fails_with InvalidArgument (getRankedUsers page (Int z) st)).
    { intros z Hz.
      destruct (getRankedUsers_rejects page (Int z) st) as (e & He & Hk & _).
      - right. intros (b & Hb & Hr). injection Hb as <-. contradiction.
      - exists e. rewrite He. auto. }
    split; apply Hbad; lia.
Qed.

(** C3. On an empty table, listing with valid parameters returns the
    empty page whatever page was asked for: no records, a total of 0,
    0 pages, nothing more, and the requested page echoed; the only call
    made to the store is the count. *)
Theorem getRankedUsers_empty_table :
  forall (page pageSize : Z) (st : Store),
    1 <= page -> 1 <= pageSize <= 1000 ->
    faults st CallCount = None ->
    table st = [] ->
    exists st',
      getRankedUsers (Int page) (Int pageSize) st
      = (inr {| users := []; totalCount := Int 0; currentPage := Int page;
                totalPages := Int 0; hasMore := false |}, st')
      /\ issued st st' [CallCount]
      /\ table st' = table st.
Proof.
  intros page pageSize st Hp Hs Hc Ht.
  exists (logged CallCount st).
  rewrite getRankedUsers_run by assumption. cbv zeta.
  rewrite Hc.
  replace (Z.of_nat (length (table st)) =? 0) with true
    by (rewrite Ht; reflexivity).
  repeat split; reflexivity.
Qed.

(** ** Page arithmetic *)

Lemma ceil_div_spec a b :
  0 < b -> (ceil_div a b - 1) * b < a <= ceil_div a b * b.
Proof.
  intros Hb. unfold ceil_div.
  pose proof (Z.div_mod a b ltac:(lia)) as Hdm.
  pose proof (Z.mod_pos_bound a b Hb) as Hm.
  destruct (a mod b =? 0) eqn:E.
  - apply Z.eqb_eq in E. nia.
  - apply Z.eqb_neq in E. nia.
Qed.

Lemma ceil_div_unique a b k :
  0 < b -> (k - 1) * b < a <= k * b -> k = ceil_div a b.
Proof.
  intros Hb Hk. pose proof (ceil_div_spec a b Hb) as Hc. nia.
Qed.

(** ** Ordering *)

#[export] Instance ranked_total : Total Prisma.ranked.
Proof.
  intros u v. unfold Prisma.ranked, Prisma.ranked_leb, Prisma.desc_leb.
  destruct (Z.lt_trichotomy (level u) (level v)) as [H | [H | H]].
  - right. apply orb_true_iff. left. apply Z.ltb_lt. exact H.
  - rewrite H, Z.ltb_irrefl, Z.eqb_refl. simpl.
    destruct (exp u) as [x |], (exp v) as [y |]; auto.
    destruct (Z.le_ge_cases x y); [right | left]; apply Z.leb_le; assumption.
  - left. apply orb_true_iff. left. apply Z.ltb_lt. exact H.
Qed.

Lemma orderBy_sorted rows : Sorted Prisma.ranked (Prisma.orderBy rows).
Proof. apply Sorted_merge_sort. exact ranked_total. Qed.

Lemma orderBy_perm rows : Permutation (Prisma.orderBy rows) rows.
Proof. apply merge_sort_Permutation. Qed.

Lemma orderBy_length rows : length (Prisma.orderBy rows) = length rows.
Proof. apply Permutation_length, orderBy_perm. Qed.

(** ** Listing a page *)

Lemma page_rows_length page pageSize st :
  1 <= page -> 1 <= pageSize ->
  (page - 1) * pageSize < Z.of_nat (length (table st)) ->
  Z.of_nat (length (page_rows page pageSize st))
  = Z.min pageSize (Z.of_nat (length (table st)) - (page - 1) * pageSize).
Proof.
  intros Hp Hs Hlt. unfold page_rows.
  rewrite length_take, length_drop, orderBy_length. nia.
Qed.

(** C1. On a table of [totalCount > 0] rows that answers its queries,
    with valid [page] and [pageSize]: let [totalPages] be the ceiling of
    [totalCount / pageSize].  A page beyond [totalPages] fails with
    NotFound.  Any other page returns the rows of the ranking from
    position [(page - 1) * pageSize] on, [min pageSize (totalCount -
    (page - 1) * pageSize)] of them, with [totalCount], the page asked
    for, [totalPages], and [hasMore] telling whether
    [(page - 1) * pageSize + pageSize < totalCount]. *)
Theorem getRankedUsers_page :
  forall (page pageSize : Z) (st : Store),
    1 <= page -> 1 <= pageSize <= 1000 ->
    faults st CallCount = None ->
    (forall args, faults st (CallFindMany args) = None) ->
    let count := Z.of_nat (length (table st)) in
    0 < count ->
    exists pages : Z,
      (pages - 1) * pageSize < count <= pages * pageSize
      /\ (page > pages ->
          fails_with NotFound (getRankedUsers (Int page) (Int pageSize) st))
      /\ (page <= pages ->
          exists r st',
            getRankedUsers (Int page) (Int pageSize) st = (inr r, st')
            /\ users r = map (project ranked_select) (page_rows page pageSize st)
            /\ Z.of_nat (length (users r))
               = Z.min pageSize (count - (page - 1) * pageSize)
            /\ totalCount r = Int count
            /\ currentPage r = Int page
            /\ totalPages r = Int pages
            /\ hasMore r = ((page - 1) * pageSize + pageSize <? count)).
Proof.
  intros page pageSize st Hp Hs Hc Hf count Hpos.
  exists (ceil_div count pageSize).
  pose proof (ceil_div_spec count pageSize ltac:(lia)) as Hceil.
  split; [exact Hceil |].
  rewrite getRankedUsers_run by assumption. cbv zeta.
  fold count. rewrite Hc, Hf.
  replace (count =? 0) with false by (symmetry; apply Z.eqb_neq; lia).
  split.
  - intros Hgt.
    replace (page >? ceil_div count pageSize) with true
      by (symmetry; rewrite Z.gtb_ltb; apply Z.ltb_lt; lia).
    eexists. split; reflexivity.
  - intros Hle.
    replace (page >? ceil_div count pageSize) with false
      by (symmetry; rewrite Z.gtb_ltb; apply Z.ltb_ge; lia).
    eexists. eexists. split; [reflexivity |].
    cbn [users totalCount currentPage totalPages hasMore buildRankedUsersResponse].
    change (Prisma.select_rows (ranked_args page pageSize) st)
      with (page_rows page pageSize st).
    repeat split.
    rewrite length_map. apply page_rows_length; [lia | lia |].
    fold count. nia.
Qed.

Lemma getRankedUsers_page_witness :
  exists pages : Z,
    (pages - 1) * 2 < 3 <= pages * 2
    /\ (2 > pages ->
        fails_with NotFound
          (getRankedUsers (Int 2) (Int 2) (sample_store three_rows)))
    /\ (2 <= pages ->
        exists r st',
          getRankedUsers (Int 2) (Int 2) (sample_store three_rows) = (inr r, st')
          /\ users r = map (project ranked_select)
                         (page_rows 2 2 (sample_store three_rows))
          /\ Z.of_nat (length (users r)) = Z.min 2 (3 - (2 - 1) * 2)
          /\ totalCount r = Int 3
          /\ currentPage r = Int 2
          /\ totalPages r = Int pages
          /\ hasMore r = ((2 - 1) * 2 + 2 <? 3)).
Proof.
  apply (getRankedUsers_page 2 2 (sample_store three_rows));
    [lia | lia | reflexivity | reflexivity | reflexivity].
Defined.

Lemma getRankedUsers_empty_table_witness :
  exists st',
    getRankedUsers (Int 7) (Int 10) (sample_store [])
    = (inr {| users := []; totalCount := Int 0; currentPage := Int 7;
              totalPages := Int 0; hasMore := false |}, st')
    /\ issued (sample_store []) st' [CallCount]
    /\ table st' = [].
Proof.
  apply (getRankedUsers_empty_table 7 10 (sample_store []));
    [lia | lia | reflexivity | reflexivity].
Defined.

(** ** Validation of the keyword *)

Lemma special_char_forbidden c :
  special_char c = true <-> In c forbidden_chars.
Proof.
  unfold special_char, forbidden_chars. cbv zeta. split.
  - intros H. repeat (apply orb_true_iff in H; destruct H as [H | H]);
      apply Z.eqb_eq in H; simpl; lia.
  - simpl. intros H.
    repeat (destruct H as [H | H]; [subst c; reflexivity |]).
    contradiction.
Qed.

Lemma specialChars_test_spec s :
  specialChars_test s = true <-> has_forbidden s.
Proof.
  unfold specialChars_test, has_forbidden. rewrite existsb_exists.
  split; intros (c & Hin & Hc); exists c; split; try assumption;
    apply special_char_forbidden; assumption.
Qed.

Lemma validateKeyword_run keyword st :
  validateKeyword keyword st =
  match first_failing keyword_rules (trim keyword) with
  | Some reason => (inl (ThrowHttp (keyword_message reason)), st)
  | None => (inr tt, st)
  end.
Proof.
  unfold validateKeyword, first_failing, keyword_rules. cbn [List.find fst snd].
  assert (Hf : str_falsy keyword || (str_length (trim keyword) =? 0)
               = (str_length (trim keyword) =? 0)).
  { destruct keyword; reflexivity. }
  rewrite Hf. cbv zeta.
  destruct (str_length (trim keyword) =? 0); [reflexivity |].
  destruct (str_length (trim keyword) <? 2); [reflexivity |].
  destruct (str_length (trim keyword) >? 30); [reflexivity |].
  destruct (specialChars_test (trim keyword)); reflexivity.
Qed.

(** The keyword passes every rule exactly when its trimmed length is
    between 2 and 30 and it has no forbidden character. *)
Lemma first_failing_none keyword :
  first_failing keyword_rules (trim keyword) = None
  <-> 2 <= str_length (trim keyword) <= 30 /\ ~ has_forbidden (trim keyword).
Proof.
  unfold first_failing, keyword_rules. cbn [List.find fst snd].
  rewrite <- specialChars_test_spec.
  destruct (str_length (trim keyword) =? 0) eqn:E0.
  { apply Z.eqb_eq in E0. split; [discriminate | lia]. }
  destruct (str_length (trim keyword) <? 2) eqn:E1.
  { apply Z.ltb_lt in E1. split; [discriminate | lia]. }
  destruct (str_length (trim keyword) >? 30) eqn:E2.
  { rewrite Z.gtb_ltb in E2. apply Z.ltb_lt in E2. split; [discriminate | lia]. }
  apply Z.ltb_ge in E1. rewrite Z.gtb_ltb in E2. apply Z.ltb_ge in E2.
  destruct (specialChars_test (trim keyword)).
  - split; [discriminate | intros [_ H]; exfalso; apply H; reflexivity].
  - split; [intros _; split; [lia | discriminate] | reflexivity].
Qed.

Lemma searchUsersByKeyword_run keyword st :
  searchUsersByKeyword keyword st =
  match first_failing keyword_rules (trim keyword) with
  | Some reason => (inl (ThrowHttp (keyword_message reason)), st)
  | None =>
      let args := search_args keyword in
      let st1 := logged (CallFindMany args) st in
      match faults st (CallFindMany args) with
      | Some e => (inl (ThrowHttp (reclassified e)), st1)
      | None =>
          let rows := Prisma.select_rows args st in
          (inr {| Search.searchResults := map (project search_select) rows;
                  Search.totalCount := Int (Z.of_nat (length rows));
                  Search.keyword := trim keyword |}, st1)
      end
  end.
Proof.
  unfold searchUsersByKeyword. rewrite bind_run, validateKeyword_run.
  destruct (first_failing keyword_rules (trim keyword)); [reflexivity |].
  unfold try_catch. rewrite bind_run. fold (search_args keyword).
  rewrite findMany_run. cbv zeta.
  destruct (faults st (CallFindMany (search_args keyword))) as [e |].
  { apply handleCommonErrors_error. }
  simpl. rewrite length_map. reflexivity.
Qed.

(** C5. Search fails with InvalidArgument exactly when the trimmed
    keyword is empty, shorter than 2, longer than 30, or contains one of
    < > { } [ ] and backslash; the message names the first rule that
    fails, and the store is not touched.  A keyword of trimmed length 2
    to 30 without those characters goes on to query the store. *)
Theorem searchUsersByKeyword_invalid_argument :
  forall (keyword : jsstring) (st : Store),
    let t := trim keyword in
    let outcome := searchUsersByKeyword keyword st in
    (fails_with InvalidArgument outcome
     <-> t = [] \/ str_length t < 2 \/ str_length t > 30 \/ has_forbidden t)
    /\ (fails_with InvalidArgument outcome ->
        exists reason,
          first_failing keyword_rules t = Some reason
          /\ outcome = (inl (ThrowHttp (keyword_message reason)), st))
    /\ (2 <= str_length t <= 30 /\ ~ has_forbidden t ->
        issued st (snd outcome) [CallFindMany (search_args keyword)]).
Proof.
  intros keyword st t outcome. subst t outcome.
  rewrite searchUsersByKeyword_run.
  pose proof (first_failing_none keyword) as Hnone.
  assert (Hlen : trim keyword = [] -> str_length (trim keyword) < 2).
  { intros ->. reflexivity. }
  destruct (first_failing keyword_rules (trim keyword)) as [reason |] eqn:Ef.
  - assert (Hbad : ~ (2 <= str_length (trim keyword) <= 30
                      /\ ~ has_forbidden (trim keyword))).
    { intros H. apply Hnone in H. discriminate. }
    split; [| split].
    + split.
      * intros _.
        destruct (Z_lt_dec (str_length (trim keyword)) 2); [auto |].
        destruct (Z_gt_dec (str_length (trim keyword)) 30); [auto |].
        right. right. right.
        destruct (specialChars_test (trim keyword)) eqn:Es.
        -- apply specialChars_test_spec. assumption.
        -- exfalso. apply Hbad. split; [lia |].
           rewrite <- specialChars_test_spec, Es. discriminate.
      * intros _. eexists. split; reflexivity.
    + intros _. exists reason. split; reflexivity.
    + intros H. contradiction.
  - destruct Hnone as [Hok _]. specialize (Hok eq_refl).
    destruct Hok as [Hrange Hclean].
    assert (Hno : ~ fails_with InvalidArgument
      (let args := search_args keyword in
       let st1 := logged (CallFindMany args) st in
       match faults st (CallFindMany args) with
       | Some e => (inl (ThrowHttp (reclassified e)), st1)
       | None =>
           let rows := Prisma.select_rows args st in
           (inr {| Search.searchResults := map (project search_select) rows;
                   Search.totalCount := Int (Z.of_nat (length rows));
                   Search.keyword := trim keyword |}, st1)
       end)).
    { cbv zeta. intros (e & He & Hk). revert He.
      destruct (faults st _); [| discriminate].
      simpl. intros [= <-]. exact (reclassified_not_argument _ Hk). }
    split; [| split].
    + split; [intros H; contradiction |].
      intros [H | [H | [H | H]]]; exfalso;
        [apply Hlen in H | | |]; try lia. contradiction.
    + intros H. contradiction.
    + intros _. cbv zeta. unfold issued.
      destruct (faults st _); reflexivity.
Qed.

(** ** Requests and replies *)

Lemma getRankedUsers_returns page pageSize st r st' :
  getRankedUsers page pageSize st = (inr r, st') ->
  exists a b,
    page = Int a /\ pageSize = Int b /\ 1 <= a /\ 1 <= b <= 1000
    /\ (users r = [] \/ users r = map (project ranked_select) (page_rows a b st)).
Proof.
  intros Hrun.
  destruct (positive_integer_dec page) as [(a & -> & Ha) | Hp].
  2: { destruct (getRankedUsers_rejects page pageSize st (or_introl Hp))
         as (e & He & _). congruence. }
  destruct (page_size_in_range_dec pageSize) as [(b & -> & Hb) | Hs].
  2: { destruct (getRankedUsers_rejects (Int a) pageSize st (or_intror Hs))
         as (e & He & _). congruence. }
  exists a, b. repeat (split; [first [reflexivity | lia] |]).
  revert Hrun. rewrite getRankedUsers_run by assumption. cbv zeta.
  destruct (faults st CallCount); [discriminate |].
  destruct (_ =? 0).
  { intros [= <- _]. left. reflexivity. }
  destruct (a >? _); [discriminate |].
  destruct (faults st _); [discriminate |].
  intros [= <- _]. right. reflexivity.
Qed.

Lemma searchUsersByKeyword_returns keyword st r st' :
  searchUsersByKeyword keyword st = (inr r, st') ->
  first_failing keyword_rules (trim keyword) = None
  /\ r = {| Search.searchResults :=
              map (project search_select) (search_rows keyword st);
            Search.totalCount :=
              Int (Z.of_nat (length (search_rows keyword st)));
            Search.keyword := trim keyword |}
  /\ st' = logged (CallFindMany (search_args keyword)) st.
Proof.
  rewrite searchUsersByKeyword_run.
  destruct (first_failing keyword_rules (trim keyword)); [discriminate |].
  cbv zeta. destruct (faults st _); [discriminate |].
  intros [= <- <-]. repeat split.
Qed.

(** ** Ranking order of the returned records *)

Lemma Sorted_drop {A} (R : relation A) n l :
  Sorted R l -> Sorted R (drop n l).
Proof.
  revert l. induction n as [| n IH]; intros l Hl; [exact Hl |].
  destruct l as [| x l]; [constructor |].
  simpl. apply IH. inversion Hl; assumption.
Qed.

Lemma Sorted_take {A} (R : relation A) n l :
  Sorted R l -> Sorted R (take n l).
Proof.
  intros Hl. revert n. induction Hl as [| x l Hl IH Hd]; intros n.
  - destruct n; constructor.
  - destruct n as [| n]; [constructor |]. simpl. constructor; [apply IH |].
    destruct Hd as [| y l' Hxy]; destruct n; simpl; constructor. assumption.
Qed.

Lemma ranked_store_order select u v :
  prop f_level (project select u) = Some (VNumber (level u)) ->
  prop f_level (project select v) = Some (VNumber (level v)) ->
  prop f_exp (project select u) = Some (nullable VNumber (exp u)) ->
  prop f_exp (project select v) = Some (nullable VNumber (exp v)) ->
  Prisma.ranked u v -> store_order (project select u) (project select v).
Proof.
  intros Hlu Hlv Heu Hev Hr.
  exists (level u), (level v). split; [exact Hlu |]. split; [exact Hlv |].
  unfold Prisma.ranked, Prisma.ranked_leb in Hr.
  apply orb_true_iff in Hr. destruct Hr as [Hr | Hr].
  - left. apply Z.ltb_lt in Hr. lia.
  - right. apply andb_true_iff in Hr. destruct Hr as [Hl Hx].
    apply Z.eqb_eq in Hl. split; [exact Hl |].
    rewrite Heu, Hev. unfold Prisma.desc_leb in Hx.
    destruct (exp u) as [x |]; [| left; reflexivity].
    destruct (exp v) as [y |]; [| discriminate].
    right. exists x, y. apply Z.leb_le in Hx. simpl. repeat split. lia.
Qed.

Lemma ranked_select_order u v :
  Prisma.ranked u v ->
  store_order (project ranked_select u) (project ranked_select v).
Proof. apply ranked_store_order; reflexivity. Qed.

Lemma search_select_order u v :
  Prisma.ranked u v ->
  store_order (project search_select u) (project search_select v).
Proof. apply ranked_store_order; reflexivity. Qed.

Lemma serve_returns q st r st' :
  serve q st = (inr r, st') ->
  match q, r with
  | ListRanked page pageSize, RankedReply r =>
      getRankedUsers page pageSize st = (inr r, st')
  | SearchKeyword keyword, SearchReply r =>
      searchUsersByKeyword keyword st = (inr r, st')
  | DeleteUser userId, DeleteReply r =>
      deleteUserByUserId userId st = (inr r, st')
  | _, _ => False
  end.
Proof.
  destruct q; simpl; unfold reply.
  - destruct (getRankedUsers page pageSize st) as [[t | a] s];
      [discriminate | intros [= <- <-]; reflexivity].
  - destruct (searchUsersByKeyword keyword st) as [[t | a] s];
      [discriminate | intros [= <- <-]; reflexivity].
  - destruct (deleteUserByUserId userId0 st) as [[t | a] s];
      [discriminate | intros [= <- <-]; reflexivity].
Qed.

(** C2, as the code has it. The records of every reply to a listing or a
    search stand in the order of the database: for adjacent records
    [r1], [r2], either [r1.level > r2.level], or the levels are equal
    and [r1.exp] is null or both have experience and
    [r1.exp >= r2.exp]. *)
Theorem records_in_store_order :
  forall (q : Request) (st st' : Store) (r : Reply),
    serve q st = (inr r, st') ->
    Sorted store_order (records r).
Proof.
  intros q st st' r Hrun. apply serve_returns in Hrun.
  destruct q, r; try contradiction; simpl.
  - apply getRankedUsers_returns in Hrun.
    destruct Hrun as (a & b & _ & _ & _ & _ & [-> | ->]); [constructor |].
    apply Sorted_fmap with (R1 := Prisma.ranked).
    + intros u v. apply ranked_select_order.
    + apply Sorted_take, Sorted_drop, orderBy_sorted.
  - apply searchUsersByKeyword_returns in Hrun.
    destruct Hrun as (_ & -> & _). simpl.
    apply Sorted_fmap with (R1 := Prisma.ranked).
    + intros u v. apply search_select_order.
    + apply Sorted_take, orderBy_sorted.
  - constructor.
Qed.

Lemma records_in_store_order_witness :
  Sorted store_order
    (map (project ranked_select) null_exp_rows).
Proof.
  apply (records_in_store_order (ListRanked (Int 1) (Int 10))
           (sample_store null_exp_rows)
           (logged (CallFindMany (ranked_args 1 10))
              (logged CallCount (sample_store null_exp_rows)))
           (RankedReply (buildRankedUsersResponse
              (map (project ranked_select) null_exp_rows)
              (Int 2) (Int 1) (Int 1) false))).
  vm_compute. reflexivity.
Defined.

(** C2, as stated, fails: a record without experience is listed before a
    record of the same level with experience 100, and null >= 100 does
    not hold. *)
Lemma claimed_order_counterexample :
  exists r st',
    getRankedUsers (Int 1) (Int 10) (sample_store null_exp_rows) = (inr r, st')
    /\ ~ Sorted claimed_order (users r).
Proof.
  eexists. eexists. split; [vm_compute; reflexivity |].
  intros H. inversion H as [| x l _ Hd]; subst.
  inversion Hd as [| y l' Hxy]; subst.
  destruct Hxy as (l1 & l2 & e1 & e2 & H1 & H2 & H3 & H4 & Hor).
  vm_compute in H1, H2, H3, H4.
  injection H1 as <-. injection H2 as <-. injection H3 as <-. injection H4 as <-.
  lia.
Qed.

(** ** Search *)

Lemma starts_with_spec needle hay :
  starts_with needle hay = true <-> exists after, hay = needle ++ after.
Proof.
  revert hay. induction needle as [| a needle IH]; intros hay; simpl.
  - split; [intros _; exists hay; reflexivity | reflexivity].
  - destruct hay as [| b hay].
    + split; [discriminate | intros (after & H); discriminate].
    + rewrite andb_true_iff, N.eqb_eq, IH. split.
      * intros (-> & after & ->). exists after. reflexivity.
      * intros (after & [= -> ->]). split; [reflexivity |].
        exists after. reflexivity.
Qed.

Lemma includes_spec needle hay :
  includes needle hay = true
  <-> exists before after, hay = before ++ needle ++ after.
Proof.
  induction hay as [| c hay IH].
  - simpl. rewrite orb_false_r, starts_with_spec. split.
    + intros (after & H). exists [], after. exact H.
    + intros (before & after & H). destruct before; [| discriminate].
      exists after. exact H.
  - change (includes needle (c :: hay))
      with (starts_with needle (c :: hay) || includes needle hay).
    rewrite orb_true_iff, starts_with_spec, IH. split.
    + intros [(after & H) | (before & after & H)].
      * exists [], after. exact H.
      * exists (c :: before), after. simpl. rewrite H. reflexivity.
    + intros (before & after & H). destruct before as [| b before].
      * left. exists after. exact H.
      * right. injection H as _ H. exists before, after. exact H.
Qed.

(** LIKE, as computed and as specified. *)
Lemma like_run_eq rest text :
  Prisma.like (37%N :: rest) text
  = Prisma.like rest text
    || match text with
       | [] => false
       | _ :: text' => Prisma.like (37%N :: rest) text'
       end.
Proof. destruct text; reflexivity. Qed.

Lemma like_run_spec rest text :
  Prisma.like (37%N :: rest) text = true
  <-> exists skipped text',
        text = skipped ++ text' /\ Prisma.like rest text' = true.
Proof.
  induction text as [| d text IH]; rewrite like_run_eq, orb_true_iff.
  - split.
    + intros [H | H]; [| discriminate]. exists [], []. auto.
    + intros (skipped & text' & Heq & H). left.
      symmetry in Heq. apply app_eq_nil in Heq. destruct Heq as [_ ->].
      exact H.
  - rewrite IH. split.
    + intros [H | (skipped & text' & -> & H)].
      * exists [], (d :: text). auto.
      * exists (d :: skipped), text'. auto.
    + intros (skipped & text' & Heq & H).
      destruct skipped as [| x skipped]; simpl in Heq.
      * left. rewrite Heq. exact H.
      * right. injection Heq as -> ->. eauto.
Qed.

Lemma Like_run_inv rest text :
  Like (37%N :: rest) text
  <-> exists skipped text', text = skipped ++ text' /\ Like rest text'.
Proof.
  split.
  - intros H. inversion H; subst; [eauto | congruence].
  - intros (skipped & text' & -> & H). constructor. exact H.
Qed.

Lemma like_spec pattern text :
  Prisma.like pattern text = true <-> Like pattern text.
Proof.
  remember (length pattern) as n eqn:Hn.
  revert pattern Hn text.
  induction n as [n IH] using lt_wf_ind. intros pattern Hn text.
  destruct pattern as [| c rest].
  { destruct text; simpl; split; try discriminate.
    - intros _. constructor.
    - reflexivity.
    - intros H. inversion H. }
  assert (IHrest : forall t, Prisma.like rest t = true <-> Like rest t).
  { intros t. apply (IH (length rest)); [subst n; simpl; lia | reflexivity]. }
  destruct (N.eq_dec c 37%N) as [-> | H37].
  { rewrite like_run_spec, Like_run_inv.
    split; intros (skipped & text' & Heq & H); exists skipped, text';
      (split; [exact Heq | apply IHrest; exact H]). }
  destruct (N.eq_dec c 95%N) as [-> | H95].
  { destruct text as [| d text]; simpl.
    - split; [discriminate | intros H; inversion H; congruence].
    - rewrite IHrest. split.
      + intros H. constructor. exact H.
      + intros H. inversion H; subst; [assumption | congruence]. }
  destruct (N.eq_dec c 92%N) as [-> | H92].
  { destruct rest as [| x rest'].
    - simpl. split; [discriminate | intros H; inversion H; congruence].
    - assert (IHrest' : forall t, Prisma.like rest' t = true <-> Like rest' t).
      { intros t. apply (IH (length rest')); [subst n; simpl; lia | reflexivity]. }
      destruct text as [| d text]; simpl.
      + split; [discriminate | intros H; inversion H; congruence].
      + rewrite andb_true_iff, N.eqb_eq, IHrest'. split.
        * intros [-> H]. constructor. exact H.
        * intros H. inversion H; subst; [auto | congruence]. }
  assert (Hsame : Prisma.like (c :: rest) text
                  = match text with
                    | [] => false
                    | d :: text' => (d =? c)%N && Prisma.like rest text'
                    end).
  { simpl.
    replace (c =? 37)%N with false by (symmetry; apply N.eqb_neq; exact H37).
    replace (c =? 95)%N with false by (symmetry; apply N.eqb_neq; exact H95).
    replace (c =? 92)%N with false by (symmetry; apply N.eqb_neq; exact H92).
    reflexivity. }
  rewrite Hsame. destruct text as [| d text].
  - split; [discriminate | intros H; inversion H; congruence].
  - rewrite andb_true_iff, N.eqb_eq, IHrest. split.
    + intros [-> H]. constructor; assumption.
    + intros H. inversion H; subst; try congruence. auto.
Qed.





Lemma matches_spec st k u :
  Prisma.matches (lower st) k u = true <-> is_match st k u.
Proof.
  unfold Prisma.matches, Prisma.contains_insensitive, is_match, contains_like.
  rewrite orb_true_iff, !like_spec. reflexivity.
Qed.



Lemma matching_rows_spec st k u :
  In u (matching_rows st k) <-> In u (table st) /\ is_match st k u.
Proof.
  unfold matching_rows. rewrite filter_In, matches_spec. reflexivity.
Qed.

Lemma search_rows_In keyword st u :
  In u (search_rows keyword st) -> In u (matching_rows st (trim keyword)).
Proof.
  unfold search_rows. intros H.
  apply (Permutation_in u (orderBy_perm _)).
  rewrite <- (take_drop 50 (Prisma.orderBy _)).
  apply in_or_app. left. exact H.
Qed.






(** ** Deletion *)

Lemma validateUserId_run k st :
  validateUserId k st =
  match first_failing userId_rules k with
  | Some reason => (inl (ThrowHttp (keyword_message reason)), st)
  | None => (inr tt, st)
  end.
Proof.
  unfold validateUserId, first_failing, userId_rules. cbn [List.find fst snd].
  rewrite orb_false_r.
  destruct (str_falsy k); [reflexivity |].
  destruct (str_length k >? 30); [reflexivity |].
  destruct (specialChars_test k); reflexivity.
Qed.

Lemma userId_rules_none k :
  first_failing userId_rules k = None <-> valid_userId k.
Proof.
  unfold first_failing, userId_rules, valid_userId. cbn [List.find fst snd].
  rewrite <- specialChars_test_spec.
  destruct k as [| c k]; simpl str_falsy; cbv iota.
  { split; [discriminate | intros [H _]; contradiction]. }
  destruct (str_length (c :: k) >? 30) eqn:E.
  { rewrite Z.gtb_ltb in E. apply Z.ltb_lt in E. split; [discriminate | lia]. }
  rewrite Z.gtb_ltb in E. apply Z.ltb_ge in E.
  destruct (specialChars_test (c :: k)).
  - split; [discriminate | intros (_ & _ & H); exfalso; apply H; reflexivity].
  - split; [| reflexivity].
    intros _. split; [discriminate |]. split; [lia | discriminate].
Qed.

Lemma deleteUserByUserId_run k st :
  valid_userId k ->
  deleteUserByUserId k st =
  let st1 := logged (CallFindUnique k) st in
  match faults st (CallFindUnique k) with
  | Some e => (inl (ThrowHttp (reclassified e)), st1)
  | None =>
      match List.find (Prisma.has_userId k) (table st) with
      | None => (inl (ThrowHttp user_not_found), st1)
      | Some _ =>
          let st2 := logged (CallDelete k) st1 in
          match faults st (CallDelete k) with
          | Some e => (inl (ThrowHttp (reclassified e)), st2)
          | None =>
              (inr {| Delete.success := true;
                      Delete.message := deleted_message k |},
               with_table
                 (List.filter (fun u => negb (Prisma.has_userId k u)) (table st))
                 st2)
          end
      end
  end.
Proof.
  intros Hv. apply userId_rules_none in Hv.
  unfold deleteUserByUserId. rewrite bind_run, validateUserId_run, Hv.
  unfold try_catch. rewrite bind_run. unfold Prisma.findUnique at 1.
  cbv zeta.
  destruct (faults st (CallFindUnique k)) as [e |] eqn:Ef.
  { rewrite (store_call_fault _ _ _ _ _ Ef). apply handleCommonErrors_error. }
  erewrite store_call_read by (try exact Ef; reflexivity).
  destruct (List.find (Prisma.has_userId k) (table st)) as [u |] eqn:Eu;
    [| reflexivity].
  cbn [option_map]. rewrite bind_run. unfold Prisma.delete, store_call.
  change (faults (logged (CallFindUnique k) st)) with (faults st).
  change (table (logged (CallFindUnique k) st)) with (table st).
  destruct (faults st (CallDelete k)) as [e |].
  { apply handleCommonErrors_error. }
  rewrite Eu. reflexivity.
Qed.

Lemma find_has_userId_none k rows :
  List.find (Prisma.has_userId k) rows = None
  <-> ~ exists u, In u rows /\ userId u = k.
Proof.
  split.
  - intros H (u & Hin & Hu).
    pose proof (find_none _ _ H u Hin) as Hf.
    unfold Prisma.has_userId in Hf. apply bool_decide_eq_false in Hf.
    contradiction.
  - intros H. destruct (List.find _ rows) as [u |] eqn:E; [| reflexivity].
    exfalso. apply H. apply find_some in E. destruct E as [Hin Hu].
    exists u. split; [exact Hin |].
    unfold Prisma.has_userId in Hu. apply bool_decide_eq_true in Hu. exact Hu.
Qed.

Lemma filter_keeps_all {A} (f : A -> bool) l :
  (forall x, In x l -> f x = true) -> List.filter f l = l.
Proof.
  induction l as [| x l IH]; intros H; [reflexivity |].
  simpl. rewrite (H x (or_introl eq_refl)). f_equal.
  apply IH. intros y Hy. apply H. right. exact Hy.
Qed.

Lemma delete_removes_one before u after :
  List.NoDup (map userId (before ++ u :: after)) ->
  List.filter (fun v => negb (Prisma.has_userId (userId u) v))
    (before ++ u :: after)
  = before ++ after.
Proof.
  intros Hnd. rewrite map_app in Hnd. simpl in Hnd.
  apply NoDup_remove_2 in Hnd.
  assert (Hother : forall v, In v (before ++ after) ->
                     negb (Prisma.has_userId (userId u) v) = true).
  { intros v Hv. apply negb_true_iff. unfold Prisma.has_userId.
    apply bool_decide_eq_false. intros Heq. apply Hnd.
    rewrite <- Heq, <- map_app. apply in_map. exact Hv. }
  rewrite List.filter_app. simpl.
  replace (Prisma.has_userId (userId u) u) with true
    by (symmetry; apply bool_decide_eq_true; reflexivity).
  simpl. rewrite !filter_keeps_all; [reflexivity | |].
  - intros v Hv. apply Hother. apply in_or_app. right. exact Hv.
  - intros v Hv. apply Hother. apply in_or_app. left. exact Hv.
Qed.

(** C7. For a valid identifier, on a store that answers and keeps
    identifiers unique: if no row has the identifier, deletion fails
    with NotFound and the table is unchanged; if the row [u] has it,
    deletion removes [u] and nothing else, replies with success and a
    message naming the identifier, and deleting the identifier again
    fails with NotFound. *)
Theorem deleteUserByUserId_once :
  forall (k : jsstring) (st : Store),
    valid_userId k ->
    faults st (CallFindUnique k) = None ->
    faults st (CallDelete k) = None ->
    unique_userIds st ->
    ((~ exists u, In u (table st) /\ userId u = k) ->
       fails_with NotFound (deleteUserByUserId k st)
       /\ table (snd (deleteUserByUserId k st)) = table st)
    /\ (forall u, In u (table st) -> userId u = k ->
        exists st' before after,
          deleteUserByUserId k st
          = (inr {| Delete.success := true;
                    Delete.message := deleted_message k |}, st')
          /\ table st = before ++ u :: after
          /\ table st' = before ++ after
          /\ fails_with NotFound (deleteUserByUserId k st')
          /\ table (snd (deleteUserByUserId k st')) = table st').
Proof.
  intros k st Hv Hf Hd Hu.
  assert (Habsent : forall s,
            faults s (CallFindUnique k) = None ->
            (~ exists u, In u (table s) /\ userId u = k) ->
            fails_with NotFound (deleteUserByUserId k s)
            /\ table (snd (deleteUserByUserId k s)) = table s).
  { intros s Hs Hno. rewrite deleteUserByUserId_run by exact Hv. cbv zeta.
    rewrite Hs. apply find_has_userId_none in Hno. rewrite Hno.
    split; [| reflexivity]. exists user_not_found. split; reflexivity. }
  split; [apply Habsent; exact Hf |].
  intros u Hin Hk.
  destruct (in_split _ _ Hin) as (before & after & Ht).
  assert (Hrm : List.filter (fun v => negb (Prisma.has_userId k v)) (table st)
                = before ++ after).
  { rewrite <- Hk, Ht. apply delete_removes_one.
    rewrite <- Ht. exact Hu. }
  eexists. exists before, after.
  rewrite deleteUserByUserId_run by exact Hv. cbv zeta. rewrite Hf, Hd.
  destruct (List.find (Prisma.has_userId k) (table st)) as [w |] eqn:Ew.
  2: { exfalso. apply find_has_userId_none in Ew. apply Ew. eauto. }
  split; [reflexivity |]. split; [exact Ht |].
  split; [exact Hrm |].
  apply Habsent; [exact Hf |].
  cbn [table with_table]. rewrite Hrm.
  intros (v & Hv' & Hvk).
  unfold unique_userIds in Hu. rewrite Ht, map_app in Hu. simpl in Hu.
  apply NoDup_remove_2 in Hu. apply Hu.
  rewrite <- map_app, Hk, <- Hvk. apply in_map. exact Hv'.
Qed.

Lemma deleteUserByUserId_once_witness :
  exists st',
    deleteUserByUserId (lit "Bob") (sample_store three_rows)
    = (inr {| Delete.success := true;
              Delete.message := lit "User with userId Bob has been deleted." |},
       st')
    /\ map userId (table st') = [lit "Ann"; lit "Cid"]
    /\ fails_with NotFound (deleteUserByUserId (lit "Bob") st').
Proof.
  destruct (deleteUserByUserId_once (lit "Bob") (sample_store three_rows))
    as [_ Hpresent].
  - split; [discriminate |]. split; [vm_compute; discriminate |].
    rewrite <- specialChars_test_spec. vm_compute. discriminate.
  - reflexivity.
  - reflexivity.
  - unfold unique_userIds. vm_compute.
    repeat (constructor; [simpl; intuition discriminate |]). constructor.
  - destruct (Hpresent (sample_user "Bob" 50 (Some 200)))
      as (st' & before & after & Hrun & Ht & Ht' & Hagain & _).
    + simpl. tauto.
    + reflexivity.
    + exists st'. split; [exact Hrun |]. split; [| exact Hagain].
      revert Hrun. vm_compute. intros [= <-]. reflexivity.
Defined.

(** ** Classification of failures *)













(** ** The shape of the returned records *)

Lemma keys_project select u : keys (project select u) = select.
Proof.
  unfold keys, project. rewrite map_map. simpl. apply map_id.
Qed.

Lemma prop_project select u f :
  In f select -> prop f (project select u) = Some (column f u).
Proof.
  induction select as [| g select IH]; intros Hin; [contradiction |].
  simpl. destruct (decide (f = g)) as [-> | Hne]; [reflexivity |].
  apply IH. destruct Hin as [-> | Hin]; [contradiction | exact Hin].
Qed.

Lemma page_rows_In page pageSize st u :
  In u (page_rows page pageSize st) -> In u (table st).
Proof.
  unfold page_rows. intros H.
  apply (Permutation_in u (orderBy_perm (table st))).
  set (sorted := Prisma.orderBy (table st)) in *.
  set (n := Z.to_nat ((page - 1) * pageSize)) in *.
  rewrite <- (take_drop n sorted). apply in_or_app. right.
  rewrite <- (take_drop (Z.to_nat pageSize) (drop n sorted)).
  apply in_or_app. left. exact H.
Qed.

Lemma projected_records st select rows :
  (forall u, In u rows -> In u (table st)) ->
  Forall (record_of st select) (map (project select) rows).
Proof.
  intros Hrows. apply List.Forall_forall. intros o Ho.
  apply in_map_iff in Ho. destruct Ho as (u & <- & Hu).
  split; [apply keys_project |].
  exists u. split; [apply Hrows; exact Hu |].
  intros f Hf. apply prop_project. exact Hf.
Qed.

(** C10. Every record of a search has exactly the properties userId,
    nickname, level, job, jobCode, meso, playTime, exp and createdAt;
    every record of a listing has those and, besides, id and updatedAt.
    Each holds the values of a row of the table. *)
Theorem record_shapes :
  forall (q : Request) (st st' : Store) (r : Reply),
    serve q st = (inr r, st') ->
    match q with
    | ListRanked _ _ =>
        Forall (record_of st
                  [f_id; f_userId; f_nickname; f_level; f_job; f_jobCode;
                   f_meso; f_playTime; f_exp; f_createdAt; f_updatedAt])
          (records r)
    | SearchKeyword _ =>
        Forall (record_of st
                  [f_userId; f_nickname; f_level; f_job; f_jobCode;
                   f_meso; f_playTime; f_exp; f_createdAt])
          (records r)
    | DeleteUser _ => records r = []
    end.
Proof.
  intros q st st' r Hrun. apply serve_returns in Hrun.
  destruct q, r; try contradiction; simpl.
  - apply getRankedUsers_returns in Hrun.
    destruct Hrun as (a & b & _ & _ & _ & _ & [-> | ->]); [constructor |].
    apply (projected_records st ranked_select).
    intros u. apply page_rows_In.
  - apply searchUsersByKeyword_returns in Hrun.
    destruct Hrun as (_ & -> & _). simpl.
    apply (projected_records st search_select).
    intros u Hu. apply search_rows_In, matching_rows_spec in Hu. tauto.
  - reflexivity.
Qed.

Lemma record_shapes_witness :
  Forall (record_of (sample_store three_rows) search_shape)
    (map (project search_select) [sample_user "Bob" 50 (Some 200)]).
Proof.
  apply (record_shapes (SearchKeyword (lit " bo "))
           (sample_store three_rows)
           (logged (CallFindMany (search_args (lit " bo ")))
              (sample_store three_rows))
           (SearchReply
              {| Search.searchResults :=
                   map (project search_select) [sample_user "Bob" 50 (Some 200)];
                 Search.totalCount := Int 1;
                 Search.keyword := lit "bo" |})).
  vm_compute. reflexivity.
Defined.

(** ** The controller's query parameters *)

Lemma or_else_handed q default :
  handed q default (or_else (parseInt q) (Int default)).
Proof.
  unfold handed, or_else. repeat split.
  - intros ->. reflexivity.
  - intros ->. reflexivity.
  - intros ->. reflexivity.
  - intros z -> Hz. simpl.
    replace (z =? 0) with false by (symmetry; apply Z.eqb_neq; exact Hz).
    reflexivity.
Qed.

(** C9, as the code has it. The controller passes to the service, for each
    of [page] and [pageSize], the default (1 and 10) when the string is
    missing, does not parse as an integer, or parses to 0, and the parsed
    integer when the string parses to an integer other than 0. *)
Theorem getRanked_coercion :
  forall (page pageSize : option jsstring) (st : Store),
    exists p s,
      UsersController.getRanked page pageSize st = getRankedUsers p s st
      /\ handed page 1 p
      /\ handed pageSize 10 s.
Proof.
  intros page pageSize st.
  exists (or_else (parseInt page) (Int 1)),
         (or_else (parseInt pageSize) (Int 10)).
  split; [reflexivity |]. split; apply or_else_handed.
Qed.

(** C9, as stated, fails: "0" parses to the integer 0, yet the service
    is called with the defaults, and answers with a page where 0 itself
    would have been refused. *)
Lemma zero_query_counterexample :
  parseInt (Some (lit "0")) = Int 0
  /\ UsersController.getRanked (Some (lit "0")) (Some (lit "0"))
       (sample_store three_rows)
     = getRankedUsers (Int 1) (Int 10) (sample_store three_rows)
  /\ UsersController.getRanked (Some (lit "0")) (Some (lit "0"))
       (sample_store three_rows)
     <> getRankedUsers (Int 0) (Int 0) (sample_store three_rows)
  /\ fails_with InvalidArgument
       (getRankedUsers (Int 0) (Int 0) (sample_store three_rows)).
Proof.
  split; [reflexivity |]. split; [reflexivity |]. split.
  - intros H. vm_compute in H. discriminate.
  - eexists. split; reflexivity.
Qed.

(** ** Examples *)

(** A(level 50, exp 100), B(level 50, exp 200), C(level 40, exp 999):
    page 1 of size 10 lists B, A, C. *)
Example listing_order :
  let '(outcome, _) := getRankedUsers (Int 1) (Int 10) (sample_store three_rows) in
  match outcome with
  | inr r => map (prop f_userId) (users r)
             = [Some (VString (lit "Bob")); Some (VString (lit "Ann"));
                Some (VString (lit "Cid"))]
  | inl _ => False
  end.
Proof. vm_compute. reflexivity. Qed.

(** The keyword "<script>" has a valid length and is refused for its
    characters. *)
Example script_keyword :
  fst (searchUsersByKeyword (lit "<script>") (sample_store three_rows))
  = inl (ThrowHttp (keyword_message "Search keyword contains invalid characters")).
Proof. reflexivity. Qed.

(** A keyword of 31 characters with a forbidden one among them is
    refused for its length: the rules are tried in order. *)
Example long_keyword :
  fst (searchUsersByKeyword (lit "<234567890123456789012345678901")
         (sample_store three_rows))
  = inl (ThrowHttp (keyword_message "Search keyword cannot exceed 30 characters")).
Proof. reflexivity. Qed.

(** Query strings as [parseInt] reads them. *)
Example parseInt_samples :
  parseInt (Some (lit "  -12abc")) = Int (-12)
  /\ parseInt (Some (lit "abc")) = NaN
  /\ parseInt (Some (lit "+7")) = Int 7
  /\ parseInt (Some (lit "1e3")) = Int 1
  /\ parseInt (Some (lit "")) = NaN
  /\ parseInt None = NaN.
Proof. repeat split. Qed.

(** * Further properties *)

(** ** What a request does to the store *)

Lemma issued_none st : issued st st [].
Proof. unfold issued. rewrite app_nil_r. reflexivity. Qed.

Lemma issued_one st c : issued st (logged c st) [c].
Proof. reflexivity. Qed.

Lemma issued_two st c1 c2 : issued st (logged c2 (logged c1 st)) [c1; c2].
Proof. unfold issued. simpl. rewrite <- app_assoc. reflexivity. Qed.

Lemma getRankedUsers_cases page pageSize st :
  (exists e, getRankedUsers page pageSize st = (inl (ThrowHttp e), st))
  \/ (exists a b, page = Int a /\ pageSize = Int b /\ 1 <= a /\ 1 <= b <= 1000).
Proof.
  destruct (positive_integer_dec page) as [(a & -> & Ha) | Hp].
  2: { left. destruct (getRankedUsers_rejects page pageSize st (or_introl Hp))
         as (e & He & _). eauto. }
  destruct (page_size_in_range_dec pageSize) as [(b & -> & Hb) | Hs].
  2: { left. destruct (getRankedUsers_rejects (Int a) pageSize st (or_intror Hs))
         as (e & He & _). eauto. }
  right. exists a, b. auto.
Qed.

Lemma deleteUserByUserId_cases k st :
  (exists e, deleteUserByUserId k st = (inl (ThrowHttp e), st)
             /\ kind_of e = Some InvalidArgument
             /\ exists reason, first_failing userId_rules k = Some reason
                               /\ e = keyword_message reason)
  \/ valid_userId k.
Proof.
  destruct (first_failing userId_rules k) as [reason |] eqn:E.
  - left. exists (keyword_message reason).
    unfold deleteUserByUserId. rewrite bind_run, validateUserId_run, E.
    repeat split. exists reason. auto.
  - right. apply userId_rules_none. exact E.
Qed.

(** The state of the store after a request: what was asked of it, and
    what became of the table. *)
Lemma serve_effect q st :
  exists calls,
    issued st (snd (serve q st)) calls
    /\ allowed_calls q st calls
    /\ (table (snd (serve q st)) = table st
        \/ exists k, q = DeleteUser k
             /\ In (CallDelete k) calls
             /\ (exists r, fst (serve q st) = inr r)
             /\ table (snd (serve q st)) = without k (table st)).
Proof.
  destruct q as [page pageSize | keyword | k]; simpl; unfold reply.
  - destruct (getRankedUsers_cases page pageSize st)
      as [(e & ->) | (a & b & -> & -> & Ha & Hb)].
    { exists []. split; [apply issued_none |]. split; [left |]; auto. }
    rewrite getRankedUsers_run by assumption. cbv zeta.
    destruct (faults st CallCount).
    { exists [CallCount]. split; [apply issued_one |]. simpl. auto. }
    destruct (_ =? 0).
    { exists [CallCount]. split; [apply issued_one |]. simpl. auto. }
    destruct (a >? _).
    { exists [CallCount]. split; [apply issued_one |]. simpl. auto. }
    exists [CallCount; CallFindMany (ranked_args a b)].
    destruct (faults st _); (split; [apply issued_two |]);
      (split; [simpl; eauto | left; reflexivity]).
  - rewrite searchUsersByKeyword_run.
    destruct (first_failing keyword_rules (trim keyword)).
    { exists []. split; [apply issued_none |]. simpl. auto. }
    cbv zeta. exists [CallFindMany (search_args keyword)].
    destruct (faults st _); (split; [apply issued_one |]);
      (split; [simpl; auto | left; reflexivity]).
  - destruct (deleteUserByUserId_cases k st) as [(e & -> & _) | Hv].
    { exists []. split; [apply issued_none |]. simpl. auto. }
    rewrite deleteUserByUserId_run by exact Hv. cbv zeta.
    destruct (faults st (CallFindUnique k)).
    { exists [CallFindUnique k]. split; [apply issued_one |]. simpl. auto. }
    destruct (List.find (Prisma.has_userId k) (table st)) as [u |] eqn:Eu.
    2: { exists [CallFindUnique k]. split; [apply issued_one |]. simpl. auto. }
    assert (Hu : exists u, In u (table st) /\ userId u = k).
    { apply find_some in Eu. destruct Eu as [Hin Hk]. exists u.
      split; [exact Hin |]. apply bool_decide_eq_true in Hk. exact Hk. }
    exists [CallFindUnique k; CallDelete k].
    destruct (faults st (CallDelete k)).
    { split; [apply issued_two |]. simpl. auto. }
    split; [apply issued_two |]. split; [simpl; auto |].
    right. exists k. simpl. repeat split; eauto.
Qed.

(** X1. Listing and search are read-only, in every store and on every
    input: the table is as before, and the store is asked at most for a
    count and one [findMany] (listing) or one [findMany] (search). *)
Theorem reads_leave_table :
  forall (q : Request) (st : Store),
    (forall k, q <> DeleteUser k) ->
    table (snd (serve q st)) = table st
    /\ exists calls,
         issued st (snd (serve q st)) calls
         /\ (length calls <= 2)%nat
         /\ forall c, In c calls ->
              c = CallCount \/ exists args, c = CallFindMany args.
Proof.
  intros q st Hq.
  destruct (serve_effect q st) as (calls & Hi & Ha & Ht). split.
  - destruct Ht as [Ht | (k & -> & _)]; [exact Ht |].
    exfalso. exact (Hq k eq_refl).
  - exists calls. split; [exact Hi |].
    destruct q as [page pageSize | keyword | k]; simpl in Ha.
    + destruct Ha as [-> | [-> | (args & ->)]]; simpl;
        (split; [lia |]); intros c Hc;
        repeat (destruct Hc as [<- | Hc]; eauto); contradiction.
    + destruct Ha as [-> | ->]; simpl; (split; [lia |]); intros c Hc;
        repeat (destruct Hc as [<- | Hc]; eauto); contradiction.
    + exfalso. exact (Hq k eq_refl).
Qed.

Lemma reads_leave_table_witness :
  table (snd (serve (SearchKeyword (lit "bo")) (sample_store three_rows)))
  = three_rows.
Proof.
  apply (reads_leave_table (SearchKeyword (lit "bo")) (sample_store three_rows)).
  intros k. discriminate.
Defined.

Lemma issued_unique st st' calls calls' :
  issued st st' calls -> issued st st' calls' -> calls = calls'.
Proof.
  unfold issued. intros H H'. rewrite H in H'.
  apply app_inv_head in H'. exact H'.
Qed.

(** X2. The store is asked to delete an identifier only by the deletion
    of that identifier, only when the identifier is valid, and only
    after a row with it was found: the service never asks for the
    deletion of a record that is not there. *)
Theorem delete_only_found :
  forall (q : Request) (st : Store) (calls : list StoreCall) (k : jsstring),
    issued st (snd (serve q st)) calls ->
    In (CallDelete k) calls ->
    q = DeleteUser k
    /\ valid_userId k
    /\ exists u, In u (table st) /\ userId u = k.
Proof.
  intros q st calls k Hi Hin.
  destruct (serve_effect q st) as (calls' & Hi' & Ha & _).
  rewrite <- (issued_unique _ _ _ _ Hi Hi') in Ha.
  destruct q as [page pageSize | keyword | k']; simpl in Ha.
  - destruct Ha as [-> | [-> | (args & ->)]]; simpl in Hin;
      intuition discriminate.
  - destruct Ha as [-> | ->]; simpl in Hin; intuition discriminate.
  - destruct Ha as [-> | [-> | (-> & Hu)]]; simpl in Hin;
      try solve [intuition discriminate].
    destruct Hin as [Hin | [Hin | []]]; [discriminate |].
    injection Hin as ->. split; [reflexivity |]. split; [| exact Hu].
    destruct (deleteUserByUserId_cases k st) as [(e & He & _) | Hv];
      [| exact Hv].
    exfalso. simpl in Hi. unfold reply in Hi. rewrite He in Hi.
    pose proof (issued_unique _ _ _ _ Hi (issued_none st)). discriminate.
Qed.

Lemma delete_only_found_witness :
  DeleteUser (lit "Bob") = DeleteUser (lit "Bob")
  /\ valid_userId (lit "Bob")
  /\ exists u, In u three_rows /\ userId u = lit "Bob".
Proof.
  apply (delete_only_found (DeleteUser (lit "Bob")) (sample_store three_rows)
           [CallFindUnique (lit "Bob"); CallDelete (lit "Bob")] (lit "Bob")).
  - vm_compute. reflexivity.
  - simpl. auto.
Defined.

Lemma NoDup_map_filter {A B} (f : A -> B) (p : A -> bool) l :
  List.NoDup (map f l) -> List.NoDup (map f (List.filter p l)).
Proof.
  induction l as [| x l IH]; intros H; [exact H |].
  simpl in H. inversion H as [| y ys Hnot Hnd]; subst.
  simpl. destruct (p x); [| apply IH; exact Hnd].
  simpl. constructor; [| apply IH; exact Hnd].
  intros Hin. apply Hnot. apply in_map_iff in Hin.
  destruct Hin as (z & Hz & Hzin). apply filter_In in Hzin.
  apply in_map_iff. exists z. tauto.
Qed.

Lemma without_length k rows :
  List.NoDup (map userId rows) ->
  (length rows - 1 <= length (without k rows) <= length rows)%nat.
Proof.
  intros Hnd. split; [| apply filter_length_le].
  destruct (List.find (Prisma.has_userId k) rows) as [u |] eqn:E.
  - apply find_some in E. destruct E as [Hin Hk].
    apply bool_decide_eq_true in Hk. subst k.
    destruct (in_split _ _ Hin) as (before & after & ->).
    unfold without. rewrite delete_removes_one by exact Hnd.
    rewrite !length_app. simpl. lia.
  - unfold without. rewrite filter_keeps_all; [lia |].
    intros x Hx. rewrite (find_none _ _ E x Hx). reflexivity.
Qed.

(** X3. No request adds a row or changes one, and the unique index on
    the identifier is kept: after any request, in any store with unique
    identifiers, the identifiers are still unique, every row of the
    table was a row before, and at most one row is gone. *)
Theorem table_only_shrinks :
  forall (q : Request) (st : Store),
    unique_userIds st ->
    let st' := snd (serve q st) in
    unique_userIds st'
    /\ (forall u, In u (table st') -> In u (table st))
    /\ (length (table st) - 1 <= length (table st') <= length (table st))%nat.
Proof.
  intros q st Hu st'. subst st'.
  destruct (serve_effect q st) as (calls & _ & _ & [Ht | (k & _ & _ & _ & Ht)]);
    unfold unique_userIds; rewrite Ht.
  - split; [exact Hu |]. split; [auto | lia].
  - split; [apply NoDup_map_filter; exact Hu |].
    split; [| apply without_length; exact Hu].
    intros u Hin. apply filter_In in Hin. tauto.
Qed.

Lemma table_only_shrinks_witness :
  unique_userIds (snd (serve (DeleteUser (lit "Bob")) (sample_store three_rows)))
  /\ (forall u,
        In u (table (snd (serve (DeleteUser (lit "Bob"))
                            (sample_store three_rows)))) ->
        In u three_rows)
  /\ (3 - 1 <= length (table (snd (serve (DeleteUser (lit "Bob"))
                                     (sample_store three_rows)))) <= 3)%nat.
Proof.
  apply (table_only_shrinks (DeleteUser (lit "Bob")) (sample_store three_rows)).
  unfold unique_userIds. vm_compute.
  repeat (constructor; [simpl; intuition discriminate |]). constructor.
Defined.

(** X4. Deletion fails with InvalidArgument exactly when the identifier
    is empty, longer than 30 code units or contains one of
    < > { } [ ] and backslash; the message is that of the first rule
    broken and the store is not touched.  The identifier is not
    trimmed. *)
Theorem deleteUserByUserId_invalid_argument :
  forall (k : jsstring) (st : Store),
    (fails_with InvalidArgument (deleteUserByUserId k st)
     <-> k = [] \/ str_length k > 30 \/ has_forbidden k)
    /\ (fails_with InvalidArgument (deleteUserByUserId k st) ->
        exists reason,
          first_failing userId_rules k = Some reason
          /\ deleteUserByUserId k st
             = (inl (ThrowHttp (keyword_message reason)), st)).
Proof.
  intros k st.
  assert (Hvalid : valid_userId k ->
                   ~ fails_with InvalidArgument (deleteUserByUserId k st)).
  { intros Hv (e & He & Hk). revert He.
    rewrite deleteUserByUserId_run by exact Hv. cbv zeta.
    destruct (faults st (CallFindUnique k)).
    { simpl. intros [= <-]. exact (reclassified_not_argument _ Hk). }
    destruct (List.find _ _).
    2: { simpl. intros [= <-]. discriminate. }
    destruct (faults st (CallDelete k)); [| discriminate].
    simpl. intros [= <-]. exact (reclassified_not_argument _ Hk). }
  assert (Hiff : valid_userId k
                 <-> ~ (k = [] \/ str_length k > 30 \/ has_forbidden k)).
  { unfold valid_userId. split.
    - intros (H1 & H2 & H3) [H | [H | H]]; [contradiction | lia | contradiction].
    - intros H. repeat split.
      + intros ->. apply H. auto.
      + destruct (Z_le_dec (str_length k) 30); [assumption |].
        exfalso. apply H. right. left. lia.
      + intros Hf. apply H. auto. }
  destruct (deleteUserByUserId_cases k st)
    as [(e & He & Hk & reason & Hr & ->) | Hv].
  - assert (Hf : fails_with InvalidArgument (deleteUserByUserId k st)).
    { exists (keyword_message reason). rewrite He. auto. }
    split; [| intros _; exists reason; auto].
    split; [| intros _; exact Hf].
    intros _.
    destruct (Z_gt_dec (str_length k) 30); [auto |].
    destruct k as [| c k]; [auto |]. right. right.
    destruct (specialChars_test (c :: k)) eqn:Es.
    + apply specialChars_test_spec. exact Es.
    + exfalso.
      assert (Hv : valid_userId (c :: k)).
      { split; [discriminate |]. split; [lia |].
        rewrite <- specialChars_test_spec, Es. discriminate. }
      apply userId_rules_none in Hv. congruence.
  - split; [| intros Hf; exfalso; exact (Hvalid Hv Hf)].
    split; [intros Hf; exfalso; exact (Hvalid Hv Hf) |].
    intros H. exfalso. apply Hiff in Hv. exact (Hv H).
Qed.

(** ** Deletion, then reading *)

Lemma deleteUserByUserId_returns k st r st' :
  deleteUserByUserId k st = (inr r, st') ->
  valid_userId k
  /\ (exists u, In u (table st) /\ userId u = k)
  /\ table st' = without k (table st)
  /\ faults st' = faults st.
Proof.
  destruct (deleteUserByUserId_cases k st) as [(e & -> & _) | Hv];
    [discriminate |].
  rewrite deleteUserByUserId_run by exact Hv. cbv zeta.
  destruct (faults st (CallFindUnique k)); [discriminate |].
  destruct (List.find (Prisma.has_userId k) (table st)) as [u |] eqn:Eu;
    [| discriminate].
  destruct (faults st (CallDelete k)); [discriminate |].
  intros [= _ <-]. split; [exact Hv |]. split; [| split; reflexivity].
  apply find_some in Eu. destruct Eu as [Hin Hk].
  apply bool_decide_eq_true in Hk. eauto.
Qed.

(** Every record of a reply is the record of a row of the table, with
    that row's identifier. *)
Lemma records_of_rows q st r st' :
  serve q st = (inr r, st') ->
  forall o, In o (records r) ->
    exists u, In u (table st)
      /\ prop f_userId o = Some (VString (userId u)).
Proof.
  intros Hrun o Ho. apply serve_returns in Hrun.
  destruct q, r; try contradiction; simpl in Ho.
  - apply getRankedUsers_returns in Hrun.
    destruct Hrun as (a & b & _ & _ & _ & _ & [E | E]); rewrite E in Ho;
      [contradiction |].
    apply in_map_iff in Ho. destruct Ho as (u & <- & Hu).
    exists u. split; [exact (page_rows_In _ _ _ _ Hu) | reflexivity].
  - apply searchUsersByKeyword_returns in Hrun.
    destruct Hrun as (_ & -> & _). simpl in Ho.
    apply in_map_iff in Ho. destruct Ho as (u & <- & Hu).
    exists u. split; [| reflexivity].
    apply search_rows_In, matching_rows_spec in Hu. tauto.
Qed.

Lemma getRankedUsers_totalCount page pageSize st r st' :
  getRankedUsers page pageSize st = (inr r, st') ->
  totalCount r = Int (Z.of_nat (length (table st))).
Proof.
  intros Hrun.
  destruct (getRankedUsers_cases page pageSize st)
    as [(e & He) | (a & b & -> & -> & Ha & Hb)]; [congruence |].
  revert Hrun. rewrite getRankedUsers_run by assumption. cbv zeta.
  destruct (faults st CallCount); [discriminate |].
  destruct (_ =? 0) eqn:E0.
  { intros [= <- _]. apply Z.eqb_eq in E0. simpl. congruence. }
  destruct (a >? _); [discriminate |].
  destruct (faults st _); [discriminate |].
  intros [= <- _]. reflexivity.
Qed.

(** X5. Reading after a deletion sees the deletion: once the deletion of
    [k] has succeeded, no record of any later listing or search has the
    identifier [k], and, identifiers being unique, a later listing
    counts one record less. *)
Theorem deletion_is_seen :
  forall (k : jsstring) (st st' : Store) (r : Delete.Response),
    deleteUserByUserId k st = (inr r, st') ->
    unique_userIds st ->
    (forall q reply st'',
       serve q st' = (inr reply, st'') ->
       forall o, In o (records reply) ->
         prop f_userId o <> Some (VString k))
    /\ (forall page pageSize listing st'',
          getRankedUsers page pageSize st' = (inr listing, st'') ->
          totalCount listing = Int (Z.of_nat (length (table st)) - 1)).
Proof.
  intros k st st' r Hdel Hu.
  apply deleteUserByUserId_returns in Hdel.
  destruct Hdel as (_ & (u & Hin & Hk) & Ht & _). split.
  - intros q rep st'' Hrun o Ho.
    destruct (records_of_rows q st' rep st'' Hrun o Ho) as (v & Hv & ->).
    intros [= Heq]. rewrite Ht in Hv. apply filter_In in Hv.
    destruct Hv as [_ Hv]. apply negb_true_iff in Hv.
    apply bool_decide_eq_false in Hv. contradiction.
  - intros page pageSize listing st'' Hrun.
    rewrite (getRankedUsers_totalCount _ _ _ _ _ Hrun), Ht. f_equal.
    destruct (in_split _ _ Hin) as (before & after & Hsplit).
    subst k. rewrite Hsplit. unfold without.
    rewrite delete_removes_one by (rewrite <- Hsplit; exact Hu).
    rewrite !length_app. simpl. lia.
Qed.

Lemma deletion_is_seen_witness :
  exists listing st'',
    getRankedUsers (Int 1) (Int 10)
      (snd (deleteUserByUserId (lit "Bob") (sample_store three_rows)))
    = (inr listing, st'')
    /\ totalCount listing = Int (3 - 1).
Proof.
  destruct (deletion_is_seen (lit "Bob") (sample_store three_rows)
              (snd (deleteUserByUserId (lit "Bob") (sample_store three_rows)))
              {| Delete.success := true;
                 Delete.message := deleted_message (lit "Bob") |})
    as [_ Hcount].
  - vm_compute. reflexivity.
  - unfold unique_userIds. vm_compute.
    repeat (constructor; [simpl; intuition discriminate |]). constructor.
  - destruct (getRankedUsers (Int 1) (Int 10)
                (snd (deleteUserByUserId (lit "Bob") (sample_store three_rows))))
      as [[t | listing] st''] eqn:E.
    + vm_compute in E. discriminate.
    + exists listing, st''. split; [reflexivity |].
      exact (Hcount _ _ _ _ E).
Defined.

(** ** The pages of a listing *)

Lemma chunks_take {A} (l : list A) (s n : nat) :
  concat (map (fun p : nat => take s (drop ((p - 1) * s) l)) (seq 1 n))
  = take (n * s) l.
Proof.
  induction n as [| n IH]; [reflexivity |].
  rewrite seq_S, map_app, concat_app, IH. simpl.
  rewrite app_nil_r. replace (n - 0)%nat with n by lia.
  rewrite take_take_drop. f_equal. lia.
Qed.

Lemma concat_map_pieces {A B C} (f : B -> C) (g : A -> list B) (l : list A) :
  concat (map (fun a => map f (g a)) l) = map f (concat (map g l)).
Proof.
  induction l as [| a l IH]; [reflexivity |].
  simpl. rewrite IH, map_app. reflexivity.
Qed.

Lemma listed_page page pageSize st :
  1 <= page -> 1 <= pageSize <= 1000 ->
  faults st CallCount = None ->
  (forall args, faults st (CallFindMany args) = None) ->
  listed page pageSize st
  = if page >? ceil_div (Z.of_nat (length (table st))) pageSize then []
    else map (project ranked_select) (page_rows page pageSize st).
Proof.
  intros Hp Hs Hc Hf. unfold listed.
  rewrite getRankedUsers_run by assumption. cbv zeta. rewrite Hc, Hf.
  destruct (Z.of_nat (length (table st)) =? 0) eqn:E0.
  - apply Z.eqb_eq in E0. rewrite E0.
    assert (Ht : table st = []) by (destruct (table st); [reflexivity | discriminate]).
    unfold page_rows. rewrite Ht.
    change (Prisma.orderBy []) with (@nil User).
    rewrite drop_nil, take_nil.
    destruct (page >? _); reflexivity.
  - destruct (page >? _); reflexivity.
Qed.

Lemma ranked_same_key u v :
  Prisma.ranked u v -> Prisma.ranked v u -> rank_key u = rank_key v.
Proof.
  unfold Prisma.ranked, Prisma.ranked_leb, Prisma.desc_leb, rank_key.
  intros Huv Hvu.
  apply orb_true_iff in Huv. apply orb_true_iff in Hvu.
  destruct Huv as [Huv | Huv], Hvu as [Hvu | Hvu];
    rewrite ?andb_true_iff, ?Z.ltb_lt, ?Z.eqb_eq in *; try lia.
  destruct Huv as [Hl Huv], Hvu as [_ Hvu]. rewrite Hl. f_equal.
  destruct (exp u) as [x |], (exp v) as [y |]; try discriminate;
    [| reflexivity].
  apply Z.leb_le in Huv, Hvu. f_equal. lia.
Qed.

#[export] Instance ranked_trans : Transitive Prisma.ranked.
Proof.
  intros u v w. unfold Prisma.ranked, Prisma.ranked_leb, Prisma.desc_leb.
  rewrite !orb_true_iff, !andb_true_iff, !Z.ltb_lt, !Z.eqb_eq.
  intros [Huv | [Huv Euv]] [Hvw | [Hvw Evw]]; try (left; lia).
  right. split; [lia |].
  destruct (exp u) as [x |], (exp v) as [y |], (exp w) as [z |];
    try discriminate; try reflexivity.
  apply Z.leb_le in Euv, Evw. apply Z.leb_le. lia.
Qed.

Lemma distinct_ranks_same rows u v :
  distinct_ranks rows -> In u rows -> In v rows ->
  rank_key u = rank_key v -> u = v.
Proof.
  unfold distinct_ranks. induction rows as [| w rows IH]; [contradiction |].
  simpl. intros Hd Hu Hv Hk. apply List.NoDup_cons_iff in Hd.
  destruct Hd as [Hw Hd].
  destruct Hu as [-> | Hu], Hv as [-> | Hv]; auto.
  - exfalso. apply Hw. rewrite Hk. apply in_map. exact Hv.
  - exfalso. apply Hw. rewrite <- Hk. apply in_map. exact Hu.
Qed.

Lemma distinct_ranks_perm l l' :
  Permutation l l' -> distinct_ranks l -> distinct_ranks l'.
Proof.
  unfold distinct_ranks. intros Hp.
  apply Permutation_NoDup, Permutation_map, Hp.
Qed.

Lemma ranked_unique l1 l2 :
  distinct_ranks l1 -> Permutation l1 l2 ->
  Sorted Prisma.ranked l1 -> Sorted Prisma.ranked l2 -> l1 = l2.
Proof.
  revert l2. induction l1 as [| x l1 IH]; intros l2 Hd Hp H1 H2.
  - apply Permutation_nil in Hp. auto.
  - destruct l2 as [| y l2].
    { symmetry in Hp. apply Permutation_nil in Hp. discriminate. }
    apply Sorted_StronglySorted in H1; [| exact ranked_trans].
    apply Sorted_StronglySorted in H2; [| exact ranked_trans].
    inversion H1 as [| ? ? S1 F1]; subst.
    inversion H2 as [| ? ? S2 F2]; subst.
    rewrite List.Forall_forall in F1, F2.
    assert (Hxy : x = y).
    { assert (Hy : In y (x :: l1)).
      { apply (Permutation_in y (Permutation_sym Hp)). left. reflexivity. }
      assert (Hx : In x (y :: l2)).
      { apply (Permutation_in x Hp). left. reflexivity. }
      destruct Hy as [Hy | Hy]; [exact Hy |].
      destruct Hx as [Hx | Hx]; [auto |].
      apply (distinct_ranks_same (x :: l1)); auto.
      - left. reflexivity.
      - right. exact Hy.
      - apply ranked_same_key; auto. }
    subst y. f_equal. apply IH.
    + unfold distinct_ranks in *. simpl in Hd.
      apply List.NoDup_cons_iff in Hd. tauto.
    + apply Permutation_cons_inv in Hp. exact Hp.
    + apply StronglySorted_Sorted. exact S1.
    + apply StronglySorted_Sorted. exact S2.
Qed.

(** X6. The pages of a listing cut the ranking into consecutive pieces.
    On a table where no two rows agree on both level and experience,
    the ranking is settled by the rows alone: every arrangement of the
    table that is in ranking order is the same list.  On such a table
    and a store that answers, the records of pages 1, 2, ... up to the
    last page, one after the other, are the records of that ranking,
    each once and in order. *)
Theorem pages_cover_ranking :
  forall (pageSize : Z) (st : Store),
    1 <= pageSize <= 1000 ->
    faults st CallCount = None ->
    (forall args, faults st (CallFindMany args) = None) ->
    distinct_ranks (table st) ->
    let pages := ceil_div (Z.of_nat (length (table st))) pageSize in
    (forall ranking, Permutation ranking (table st) ->
                     Sorted Prisma.ranked ranking ->
                     ranking = Prisma.orderBy (table st))
    /\ concat (map (fun p : nat => listed (Z.of_nat p) pageSize st)
                   (seq 1 (Z.to_nat pages)))
       = map (project ranked_select) (Prisma.orderBy (table st)).
Proof.
  intros pageSize st Hs Hc Hf Hd pages.
  split.
  { intros ranking Hperm Hsorted.
    apply ranked_unique; [| | exact Hsorted | apply orderBy_sorted].
    - apply (distinct_ranks_perm (table st)); [symmetry |]; assumption.
    - rewrite Hperm. symmetry. apply orderBy_perm. }
  pose proof (ceil_div_spec (Z.of_nat (length (table st))) pageSize ltac:(lia))
    as Hceil. fold pages in Hceil.
  assert (Hpages : 0 <= pages) by nia.
  rewrite (map_ext_in _
             (fun p : nat =>
                map (project ranked_select)
                  (take (Z.to_nat pageSize)
                     (drop ((p - 1) * Z.to_nat pageSize)
                        (Prisma.orderBy (table st)))))).
  - rewrite concat_map_pieces, chunks_take. f_equal.
    apply take_ge. rewrite orderBy_length. nia.
  - intros p Hp. apply in_seq in Hp.
    rewrite listed_page by (try assumption; lia).
    replace (Z.of_nat p >? ceil_div (Z.of_nat (length (table st))) pageSize)
      with false by (symmetry; rewrite Z.gtb_ltb; apply Z.ltb_ge; fold pages; lia).
    unfold page_rows. do 3 f_equal. nia.
Qed.

Lemma pages_cover_ranking_witness :
  concat (map (fun p : nat => listed (Z.of_nat p) 2 (sample_store three_rows))
              (seq 1 (Z.to_nat (ceil_div 3 2))))
  = map (project ranked_select) (Prisma.orderBy three_rows).
Proof.
  apply (pages_cover_ranking 2 (sample_store three_rows));
    [lia | reflexivity | reflexivity |].
  unfold distinct_ranks. vm_compute.
  repeat (constructor; [simpl; intuition discriminate |]). constructor.
Defined.

Lemma getRankedUsers_listing page pageSize st r st' :
  getRankedUsers (Int page) (Int pageSize) st = (inr r, st') ->
  table st <> [] ->
  1 <= page /\ 1 <= pageSize <= 1000
  /\ page <= ceil_div (Z.of_nat (length (table st))) pageSize
  /\ r = buildRankedUsersResponse
           (map (project ranked_select) (page_rows page pageSize st))
           (Int (Z.of_nat (length (table st)))) (Int page)
           (Int (ceil_div (Z.of_nat (length (table st))) pageSize))
           ((page - 1) * pageSize + pageSize <? Z.of_nat (length (table st)))
  /\ table st' = table st /\ faults st' = faults st.
Proof.
  intros Hrun Hne.
  destruct (getRankedUsers_cases (Int page) (Int pageSize) st)
    as [(e & He) | (a & b & [= <-] & [= <-] & Ha & Hb)]; [congruence |].
  revert Hrun. rewrite getRankedUsers_run by assumption. cbv zeta.
  destruct (faults st CallCount); [discriminate |].
  destruct (_ =? 0) eqn:E0.
  { apply Z.eqb_eq in E0. destruct (table st); [contradiction | discriminate]. }
  destruct (page >? _) eqn:Eg; [discriminate |].
  destruct (faults st _); [discriminate |].
  intros [= <- <-]. rewrite Z.gtb_ltb in Eg. apply Z.ltb_ge in Eg.
  repeat split; try assumption; lia.
Qed.

(** X7. [hasMore] tells whether the next page exists.  After a listing
    of a table that is not empty, on a store that answers: if the reply
    says [hasMore], the listing of the next page returns records; if it
    does not, the listing of the next page fails with NotFound. *)
Theorem hasMore_next_page :
  forall (page pageSize : Z) (st st' : Store) (r : RankedUsersResponse),
    getRankedUsers (Int page) (Int pageSize) st = (inr r, st') ->
    table st <> [] ->
    faults st CallCount = None ->
    (forall args, faults st (CallFindMany args) = None) ->
    (hasMore r = true ->
       exists r' st'',
         getRankedUsers (Int (page + 1)) (Int pageSize) st' = (inr r', st'')
         /\ users r' <> [])
    /\ (hasMore r = false ->
        fails_with NotFound
          (getRankedUsers (Int (page + 1)) (Int pageSize) st')).
Proof.
  intros page pageSize st st' r Hrun Hne Hc Hf.
  destruct (getRankedUsers_listing _ _ _ _ _ Hrun Hne)
    as (Hp & Hs & Hle & -> & Ht & Hfs).
  set (count := Z.of_nat (length (table st))) in *.
  assert (Hpos : 0 < count).
  { subst count. destruct (table st); [contradiction | simpl; lia]. }
  pose proof (ceil_div_spec count pageSize ltac:(lia)) as Hceil.
  rewrite getRankedUsers_run by lia. cbv zeta.
  rewrite Hfs, Ht, Hc, Hf. fold count.
  replace (count =? 0) with false by (symmetry; apply Z.eqb_neq; lia).
  cbn [hasMore buildRankedUsersResponse]. split.
  - intros Hmore. apply Z.ltb_lt in Hmore.
    replace (page + 1 >? ceil_div count pageSize) with false
      by (symmetry; rewrite Z.gtb_ltb; apply Z.ltb_ge; nia).
    eexists. eexists. split; [reflexivity |].
    cbn [users buildRankedUsersResponse].
    change (Prisma.select_rows (ranked_args (page + 1) pageSize) st')
      with (page_rows (page + 1) pageSize st').
    intros Hnil. apply (f_equal (@length _)) in Hnil.
    rewrite length_map in Hnil. apply (f_equal Z.of_nat) in Hnil.
    rewrite page_rows_length in Hnil by (rewrite ?Ht; fold count; lia).
    rewrite Ht in Hnil. fold count in Hnil. simpl in Hnil. lia.
  - intros Hmore. apply Z.ltb_ge in Hmore.
    replace (page + 1 >? ceil_div count pageSize) with true
      by (symmetry; rewrite Z.gtb_ltb; apply Z.ltb_lt; nia).
    eexists. split; reflexivity.
Qed.

Lemma hasMore_next_page_witness :
  fails_with NotFound
    (getRankedUsers (Int (2 + 1)) (Int 2)
       (snd (getRankedUsers (Int 2) (Int 2) (sample_store three_rows)))).
Proof.
  destruct (getRankedUsers (Int 2) (Int 2) (sample_store three_rows))
    as [[t | r] st'] eqn:E.
  - vm_compute in E. discriminate.
  - apply (hasMore_next_page 2 2 (sample_store three_rows) st' r E).
    + discriminate.
    + reflexivity.
    + reflexivity.
    + revert E. vm_compute. intros [= <- _]. reflexivity.
Defined.

(** X8. A page of a table that is not empty is never empty and never
    longer than the page size; it is full whenever the reply says
    [hasMore], and otherwise it ends with the last record of the
    ranking. *)
Theorem page_is_filled :
  forall (page pageSize : Z) (st st' : Store) (r : RankedUsersResponse),
    getRankedUsers (Int page) (Int pageSize) st = (inr r, st') ->
    table st <> [] ->
    let n := Z.of_nat (length (users r)) in
    1 <= n <= pageSize
    /\ (hasMore r = true -> n = pageSize)
    /\ (hasMore r = false ->
        (page - 1) * pageSize + n = Z.of_nat (length (table st))).
Proof.
  intros page pageSize st st' r Hrun Hne.
  destruct (getRankedUsers_listing _ _ _ _ _ Hrun Hne)
    as (Hp & Hs & Hle & -> & _).
  set (count := Z.of_nat (length (table st))) in *.
  pose proof (ceil_div_spec count pageSize ltac:(lia)) as Hceil.
  cbn [users hasMore buildRankedUsersResponse]. rewrite length_map.
  rewrite page_rows_length by (fold count; nia). fold count.
  split; [nia |]. split.
  - intros H. apply Z.ltb_lt in H. lia.
  - intros H. apply Z.ltb_ge in H. lia.
Qed.

Lemma page_is_filled_witness :
  let r := buildRankedUsersResponse
             (map (project ranked_select) [sample_user "Cid" 40 (Some 999)])
             (Int 3) (Int 2) (Int 2) false in
  let n := Z.of_nat (length (users r)) in
  1 <= n <= 2
  /\ (hasMore r = true -> n = 2)
  /\ (hasMore r = false -> (2 - 1) * 2 + n = 3).
Proof.
  apply (page_is_filled 2 2 (sample_store three_rows)
           (logged (CallFindMany (ranked_args 2 2))
              (logged CallCount (sample_store three_rows)))).
  - vm_compute. reflexivity.
  - discriminate.
Defined.

(** ** Search *)



(** X10. A search depends on the keyword only through its trimmed,
    case-folded form: two valid keywords that agree after trimming and
    folding get the same records and the same count from a store that
    answers both. *)
Theorem search_ignores_case :
  forall (k1 k2 : jsstring) (st : Store) (r1 r2 : Search.Response)
         (st1 st2 : Store),
    map (lower st) (trim k1) = map (lower st) (trim k2) ->
    searchUsersByKeyword k1 st = (inr r1, st1) ->
    searchUsersByKeyword k2 st = (inr r2, st2) ->
    Search.searchResults r1 = Search.searchResults r2
    /\ Search.totalCount r1 = Search.totalCount r2.
Proof.
  intros k1 k2 st r1 r2 st1 st2 Hfold H1 H2.
  apply searchUsersByKeyword_returns in H1, H2.
  destruct H1 as (_ & -> & _), H2 as (_ & -> & _).
  cbn [Search.searchResults Search.totalCount].
  assert (Hrows : search_rows k1 st = search_rows k2 st).
  { unfold search_rows. do 2 f_equal. apply filter_ext. intros u.
    unfold Prisma.matches, Prisma.contains_insensitive.
    rewrite Hfold. reflexivity. }
  rewrite Hrows. split; reflexivity.
Qed.

Lemma search_ignores_case_witness :
  found (lit " BOB") (sample_store three_rows)
  = found (lit "bob ") (sample_store three_rows).
Proof.
  unfold found.
  destruct (searchUsersByKeyword (lit " BOB") (sample_store three_rows))
    as [[t1 | r1] st1] eqn:E1; [vm_compute in E1; discriminate |].
  destruct (searchUsersByKeyword (lit "bob ") (sample_store three_rows))
    as [[t2 | r2] st2] eqn:E2; [vm_compute in E2; discriminate |].
  apply (search_ignores_case (lit " BOB") (lit "bob ") (sample_store three_rows)
           r1 r2 st1 st2); [reflexivity | exact E1 | exact E2].
Defined.

(** ** Numbers written and read back *)

Lemma read_digits_digits d acc :
  read_digits (digits d) acc true = Some (uint_acc d acc).
Proof.
  revert acc. induction d; intros acc; simpl; try reflexivity; apply IHd.
Qed.

Lemma read_digits_first d acc :
  d <> Decimal.Nil ->
  read_digits (digits d) acc false = Some (uint_acc d acc).
Proof.
  intros Hd. destruct d; [contradiction | ..]; simpl; apply read_digits_digits.
Qed.

Lemma uint_acc_pos d p :
  uint_acc d (Z.pos p) = Z.pos (Pos.of_uint_acc d p).
Proof.
  revert p. induction d; intros p; simpl; try reflexivity; rewrite <- IHd;
    f_equal; lia.
Qed.

Lemma uint_acc_zero d : uint_acc d 0 = Z.of_N (Pos.of_uint d).
Proof.
  induction d; simpl; try reflexivity; try exact IHd;
    match goal with
    | |- uint_acc _ ?k = _ => apply (uint_acc_pos d (Z.to_pos k))
    end.
Qed.

Lemma trimStart_digits d : trimStart (digits d) = digits d.
Proof. destruct d; reflexivity. Qed.

Lemma parseInt_digits d :
  d <> Decimal.Nil ->
  parseInt (Some (digits d)) = Int (Z.of_N (Pos.of_uint d)).
Proof.
  intros Hd. unfold parseInt. rewrite trimStart_digits.
  assert (Hsign : match digits d with
                  | c :: s' =>
                      if (c =? 45)%N then (-1, s')
                      else if (c =? 43)%N then (1, s') else (1, digits d)
                  | [] => (1, digits d)
                  end = (1, digits d)).
  { destruct d; reflexivity. }
  rewrite Hsign, read_digits_first by exact Hd.
  rewrite uint_acc_zero. f_equal. lia.
Qed.

(** A decimal numeral reads back as the integer it was written from. *)
Lemma parseInt_String_of_int z : parseInt (Some (String_of_int z)) = Int z.
Proof.
  unfold String_of_int, Z.to_int. destruct z as [| p | p]; cbv beta iota.
  - reflexivity.
  - rewrite parseInt_digits by apply DecimalPos.Unsigned.to_uint_nonnil.
    rewrite DecimalPos.Unsigned.of_to. reflexivity.
  - unfold parseInt.
    change (trimStart (45%N :: digits (Pos.to_uint p)))
      with (45%N :: digits (Pos.to_uint p)).
    cbn [N.eqb Pos.eqb]. 
    rewrite read_digits_first by apply DecimalPos.Unsigned.to_uint_nonnil.
    rewrite uint_acc_zero, DecimalPos.Unsigned.of_to. reflexivity.
Qed.

Lemma parseInt_int_or_nan s :
  (exists z, parseInt s = Int z) \/ parseInt s = NaN.
Proof.
  unfold parseInt. destruct s as [s |]; [| auto].
  destruct (match trimStart s with
            | c :: s' =>
                if (c =? 45)%N then (-1, s')
                else if (c =? 43)%N then (1, s') else (1, trimStart s)
            | [] => (1, trimStart s)
            end) as [sign rest].
  destruct (read_digits rest 0 false); eauto.
Qed.

(** ** Query strings *)

Lemma or_else_parseInt s d :
  d <> 0 ->
  exists z,
    or_else (parseInt s) (Int d) = Int z /\ z <> 0
    /\ (parseInt s = Int z
        \/ (z = d /\ (parseInt s = NaN \/ parseInt s = Int 0))).
Proof.
  intros Hd. destruct (parseInt_int_or_nan s) as [(z & ->) | ->].
  - destruct (Z.eq_dec z 0) as [-> | Hz].
    + exists d. split; [reflexivity |]. split; [exact Hd |]. right. auto.
    + exists z. unfold or_else. simpl.
      replace (z =? 0) with false by (symmetry; apply Z.eqb_neq; exact Hz).
      auto.
  - exists d. split; [reflexivity |]. split; [exact Hd |]. right. auto.
Qed.

(** X11. Over HTTP, for parameters whose digits write integers up to
    [MAX_SAFE_INTEGER] in size, a listing fails with InvalidArgument
    exactly when [page] parses to a negative integer, or [pageSize]
    parses to a negative integer or to one above 1000: a parameter that
    is missing, is not a number or is 0 never does. *)
Theorem getRanked_invalid_argument :
  forall (page pageSize : option jsstring) (st : Store),
    safe_digits page -> safe_digits pageSize ->
    fails_with InvalidArgument (UsersController.getRanked page pageSize st)
    <-> (exists z, parseInt page = Int z /\ z < 0)
        \/ (exists z, parseInt pageSize = Int z /\ (z < 0 \/ 1000 < z)).
Proof.
  intros page pageSize st _ _. unfold UsersController.getRanked. cbv zeta.
  destruct (or_else_parseInt page 1 ltac:(lia)) as (p & -> & Hp0 & Hp).
  destruct (or_else_parseInt pageSize 10 ltac:(lia)) as (s & -> & Hs0 & Hs).
  split.
  - intros Hf.
    destruct (Z_le_dec 1 p) as [Hp1 | Hp1].
    + destruct (Z_le_dec 1 s) as [Hs1 | Hs1];
        [destruct (Z_le_dec s 1000) as [Hs2 | Hs2] |].
      * exfalso. exact (getRankedUsers_accepts p s st Hp1 (conj Hs1 Hs2) Hf).
      * right. exists s. split; [| lia].
        destruct Hs as [Hs | [Hd _]]; [exact Hs | exfalso; lia].
      * right. exists s. split; [| lia].
        destruct Hs as [Hs | [Hd _]]; [exact Hs | exfalso; lia].
    + left. exists p. split; [| lia].
      destruct Hp as [Hp | [Hd _]]; [exact Hp | exfalso; lia].
  - intros H.
    destruct (getRankedUsers_rejects (Int p) (Int s) st) as (e & He & Hk & _).
    + destruct H as [(z & Hz & Hneg) | (z & Hz & Hbad)].
      * left. intros (a & [= <-] & Ha).
        destruct Hp as [Hp | [-> [Hp | Hp]]];
          rewrite Hp in Hz; try discriminate; injection Hz as <-; lia.
      * right. intros (b & [= <-] & Hb).
        destruct Hs as [Hs | [-> [Hs | Hs]]];
          rewrite Hs in Hz; try discriminate; injection Hz as <-; lia.
    + exists e. rewrite He. auto.
Qed.

Lemma getRanked_invalid_argument_witness :
  fails_with InvalidArgument
    (UsersController.getRanked (Some (lit "-1")) (Some (lit "10"))
       (sample_store three_rows)).
Proof.
  apply (getRanked_invalid_argument (Some (lit "-1")) (Some (lit "10"))
           (sample_store three_rows)).
  - intros z Hz. vm_compute in Hz. injection Hz as <-.
    unfold MAX_SAFE_INTEGER. simpl. lia.
  - intros z Hz. vm_compute in Hz. injection Hz as <-.
    unfold MAX_SAFE_INTEGER. simpl. lia.
  - left. exists (-1). split; [reflexivity | lia].
Defined.

(** X12. The numbers of the client arrive unchanged: for integers other
    than 0, written in decimal (below 10^21 in size), the listing that
    [fetchUsers] asks for is the service's listing of the same page and
    page size. *)
Theorem fetchUsers_arrives :
  forall (page pageSize : Z) (st : Store),
    page <> 0 -> pageSize <> 0 ->
    Z.abs page < 10 ^ 21 -> Z.abs pageSize < 10 ^ 21 ->
    Api.fetchUsers page pageSize st
    = getRankedUsers (Int page) (Int pageSize) st.
Proof.
  intros page pageSize st Hp Hs _ _.
  unfold Api.fetchUsers, UsersController.getRanked. cbv zeta.
  rewrite !parseInt_String_of_int. unfold or_else. simpl.
  replace (page =? 0) with false by (symmetry; apply Z.eqb_neq; exact Hp).
  replace (pageSize =? 0) with false by (symmetry; apply Z.eqb_neq; exact Hs).
  reflexivity.
Qed.

Lemma fetchUsers_arrives_witness :
  Api.fetchUsers 2 100 (sample_store three_rows)
  = getRankedUsers (Int 2) (Int 100) (sample_store three_rows).
Proof.
  apply (fetchUsers_arrives 2 100 (sample_store three_rows)); lia.
Defined.

(** ** The pagination controls *)

Lemma handleGoToPage_int input pages :
  exists z,
    or_else (parseInt (Some input)) (Int 1) = Int z
    /\ DataTable.handleGoToPage input (Int pages)
       = Int (Z.max 1 (Z.min z pages)).
Proof.
  destruct (or_else_parseInt (Some input) 1 ltac:(lia)) as (z & Hz & _).
  exists z. split; [exact Hz |].
  unfold DataTable.handleGoToPage. cbv zeta. rewrite Hz. reflexivity.
Qed.

(** X13. Go never leaves the range of pages: whatever is typed in the
    page input, the page passed on is at least 1 and at most the number
    of pages (1 when there are no pages); a number typed within the
    range is passed on as it is. *)
Theorem handleGoToPage_in_range :
  forall (input : jsstring) (pages : Z),
    exists p,
      DataTable.handleGoToPage input (Int pages) = Int p
      /\ 1 <= p <= Z.max 1 pages
      /\ (forall z, parseInt (Some input) = Int z -> 1 <= z <= pages -> p = z).
Proof.
  intros input pages.
  destruct (handleGoToPage_int input pages) as (z & Hz & ->).
  eexists. split; [reflexivity |]. split; [lia |].
  intros z' Hp Hr. rewrite Hp in Hz. unfold or_else in Hz. simpl in Hz.
  replace (z' =? 0) with false in Hz by (symmetry; apply Z.eqb_neq; lia).
  injection Hz as <-. lia.
Qed.

(** X14. The page input starts as [String(currentPage)]; pressing Go on
    it untouched stays on the current page, for a current page within
    the range of pages. *)
Theorem handleGoToPage_untouched :
  forall (currentPage pages : Z),
    1 <= currentPage <= pages ->
    currentPage < 10 ^ 21 ->
    DataTable.handleGoToPage (String_of_int currentPage) (Int pages)
    = Int currentPage.
Proof.
  intros currentPage pages Hr _.
  destruct (handleGoToPage_int (String_of_int currentPage) pages)
    as (z & Hz & ->).
  rewrite parseInt_String_of_int in Hz. unfold or_else in Hz. simpl in Hz.
  replace (currentPage =? 0) with false in Hz
    by (symmetry; apply Z.eqb_neq; lia).
  injection Hz as <-. f_equal. lia.
Qed.

Lemma handleGoToPage_untouched_witness :
  DataTable.handleGoToPage (String_of_int 7) (Int 12) = Int 7.
Proof. apply (handleGoToPage_untouched 7 12); lia. Defined.

(** The page a control passes on, case by case. *)
Lemma onClick_page c currentPage pages input n :
  DataTable.onClick c (Int currentPage) (Int pages) input = Some n ->
  exists p,
    n = Int p
    /\ match c with
       | DataTable.Previous => currentPage <> 1 /\ p = currentPage - 1
       | DataTable.Next => currentPage < pages /\ p = currentPage + 1
       | DataTable.Go => exists z, p = Z.max 1 (Z.min z pages)
       end.
Proof.
  unfold DataTable.onClick. destruct c; simpl.
  - destruct (currentPage =? 1) eqn:E; [discriminate |].
    apply Z.eqb_neq in E. intros [= <-]. eexists. split; [reflexivity | auto].
  - destruct (currentPage >=? pages) eqn:E; [discriminate |].
    rewrite Z.geb_leb in E. apply Z.leb_gt in E.
    intros [= <-]. eexists. split; [reflexivity | auto].
  - intros [= <-].
    destruct (handleGoToPage_int input pages) as (z & _ & ->).
    eexists. split; [reflexivity | eauto].
Qed.

(** X15. The controls keep the page within range: from a current page
    of at least 1, a control that is not disabled passes on a page of at
    least 1, and from a page within the range of pages it passes on a
    page within that range. *)
Theorem controls_keep_range :
  forall (c : DataTable.Control) (currentPage pages : Z) (input : jsstring)
         (n : number),
    1 <= currentPage ->
    DataTable.onClick c (Int currentPage) (Int pages) input = Some n ->
    exists p,
      n = Int p /\ 1 <= p
      /\ (currentPage <= Z.max 1 pages -> p <= Z.max 1 pages).
Proof.
  intros c currentPage pages input n Hc Hclick.
  destruct (onClick_page _ _ _ _ _ Hclick) as (p & -> & Hcase).
  exists p. split; [reflexivity |].
  destruct c.
  - destruct Hcase as [Hne ->]. lia.
  - destruct Hcase as [Hlt ->]. lia.
  - destruct Hcase as (z & ->). lia.
Qed.

Lemma controls_keep_range_witness :
  exists p, Int 1 = Int p /\ 1 <= p /\ (2 <= Z.max 1 3 -> p <= Z.max 1 3).
Proof.
  apply (controls_keep_range DataTable.Previous 2 3 (lit "2") (Int 1));
    [lia | reflexivity].
Defined.

(** X16. A control never leads to a page that does not exist.  After a
    listing of page [page], with the number of pages computed from the
    count of the reply as the table component does, the page that any
    control passes on is listed by the service again (no NotFound), on a
    store that answers. *)
Theorem controls_reach_pages :
  forall (c : DataTable.Control) (page pageSize : Z) (input : jsstring)
         (st st' : Store) (r : RankedUsersResponse) (n : number),
    getRankedUsers (Int page) (Int pageSize) st = (inr r, st') ->
    faults st CallCount = None ->
    (forall args, faults st (CallFindMany args) = None) ->
    DataTable.onClick c (Int page)
      (DataTable.totalPages (totalCount r) (Int pageSize)) input = Some n ->
    exists r' st'', getRankedUsers n (Int pageSize) st' = (inr r', st'').
Proof.
  intros c page pageSize input st st' r n Hrun Hc Hf Hclick.
  pose proof (getRankedUsers_totalCount _ _ _ _ _ Hrun) as Ht.
  rewrite Ht in Hclick.
  change (DataTable.totalPages (Int (Z.of_nat (length (table st)))) (Int pageSize))
    with (Int (ceil_div (Z.of_nat (length (table st))) pageSize)) in Hclick.
  destruct (getRankedUsers_cases (Int page) (Int pageSize) st)
    as [(e & He) | (a & b & [= <-] & [= <-] & Hp & Hs)]; [congruence |].
  destruct (onClick_page _ _ _ _ _ Hclick) as (p & -> & Hcase).
  assert (Hp1 : 1 <= p).
  { destruct c; [destruct Hcase as [? ->] | destruct Hcase as [? ->]
                 | destruct Hcase as (z & ->)]; lia. }
  assert (Hmax : page <= Z.max 1 (ceil_div (Z.of_nat (length (table st))) pageSize)
                 -> p <= Z.max 1 (ceil_div (Z.of_nat (length (table st))) pageSize)).
  { destruct c; [destruct Hcase as [? ->] | destruct Hcase as [? ->]
                 | destruct Hcase as (z & ->)]; lia. }
  assert (Hst' : table st' = table st /\ faults st' = faults st).
  { revert Hrun. rewrite getRankedUsers_run by assumption. cbv zeta.
    destruct (faults st CallCount); [discriminate |].
    destruct (_ =? 0); [intros [= _ <-]; auto |].
    destruct (page >? _); [discriminate |].
    destruct (faults st _); [discriminate |]. intros [= _ <-]. auto. }
  destruct Hst' as [Htab Hfau].
  rewrite getRankedUsers_run by assumption. cbv zeta.
  rewrite Hfau, Htab, Hc, Hf.
  destruct (Z.of_nat (length (table st)) =? 0) eqn:E0; [eauto |].
  apply Z.eqb_neq in E0.
  assert (Hne : table st <> []) by (intros H; rewrite H in E0; auto).
  destruct (getRankedUsers_listing _ _ _ _ _ Hrun Hne) as (_ & _ & Hle & _).
  pose proof (ceil_div_spec (Z.of_nat (length (table st))) pageSize ltac:(lia)).
  replace (p >? ceil_div (Z.of_nat (length (table st))) pageSize) with false
    by (symmetry; rewrite Z.gtb_ltb; apply Z.ltb_ge; nia).
  eauto.
Qed.

Lemma controls_reach_pages_witness :
  exists r' st'',
    getRankedUsers (Int 2) (Int 2)
      (snd (getRankedUsers (Int 1) (Int 2) (sample_store three_rows)))
    = (inr r', st'').
Proof.
  destruct (getRankedUsers (Int 1) (Int 2) (sample_store three_rows))
    as [[t | r] st'] eqn:E.
  - vm_compute in E. discriminate.
  - apply (controls_reach_pages DataTable.Next 1 2 (lit "1")
             (sample_store three_rows) st' r (Int 2) E);
      [reflexivity | reflexivity |].
    revert E. vm_compute. intros [= <- _]. reflexivity.
Defined.

(** X17. The rank shown beside a row is its place in the ranking: row
    number [i] (from 0) of the listing of page [page] is the record of
    the row at place [getRankNumber i] (from 1) of the whole ranking,
    and that place is at most the number of rows. *)
Theorem rank_is_place :
  forall (page pageSize : Z) (st st' : Store) (r : RankedUsersResponse)
         (i : nat) (o : JsObject),
    getRankedUsers (Int page) (Int pageSize) st = (inr r, st') ->
    users r !! i = Some o ->
    exists rank u,
      DataTable.getRankNumber (Int page) (Int pageSize) (Int (Z.of_nat i))
      = Int rank
      /\ 1 <= rank <= Z.of_nat (length (table st))
      /\ Prisma.orderBy (table st) !! Z.to_nat (rank - 1) = Some u
      /\ o = project ranked_select u.
Proof.
  intros page pageSize st st' r i o Hrun Hi.
  assert (Hne : table st <> []).
  { intros Hnil.
    destruct (getRankedUsers_returns _ _ _ _ _ Hrun)
      as (a & b & _ & _ & _ & _ & [E | E]); rewrite E in Hi.
    - discriminate.
    - unfold page_rows in Hi. rewrite Hnil in Hi.
      change (Prisma.orderBy []) with (@nil User) in Hi.
      rewrite drop_nil, take_nil in Hi. discriminate. }
  destruct (getRankedUsers_listing _ _ _ _ _ Hrun Hne)
    as (Hp & Hs & Hle & -> & _).
  cbn [users buildRankedUsersResponse] in Hi.
  rewrite list_lookup_fmap in Hi.
  destruct (page_rows page pageSize st !! i) as [u |] eqn:Eu; [| discriminate].
  injection Hi as <-.
  unfold page_rows in Eu.
  apply lookup_take_Some in Eu. destruct Eu as [Eu Hlt].
  rewrite lookup_drop in Eu.
  pose proof (lookup_lt_Some _ _ _ Eu) as Hbound.
  rewrite orderBy_length in Hbound.
  exists ((page - 1) * pageSize + Z.of_nat i + 1), u.
  split; [reflexivity |]. split; [nia |]. split; [| reflexivity].
  rewrite <- Eu. f_equal. nia.
Qed.

Lemma rank_is_place_witness :
  exists rank u,
    DataTable.getRankNumber (Int 2) (Int 2) (Int (Z.of_nat 0)) = Int rank
    /\ 1 <= rank <= 3
    /\ Prisma.orderBy three_rows !! Z.to_nat (rank - 1) = Some u
    /\ project ranked_select (sample_user "Cid" 40 (Some 999))
       = project ranked_select u.
Proof.
  apply (rank_is_place 2 2 (sample_store three_rows)
           (logged (CallFindMany (ranked_args 2 2))
              (logged CallCount (sample_store three_rows)))
           (buildRankedUsersResponse
              (map (project ranked_select) [sample_user "Cid" 40 (Some 999)])
              (Int 3) (Int 2) (Int 2) false) 0%nat).
  - vm_compute. reflexivity.
  - reflexivity.
Defined.

(** ** Trimming *)

Lemma trimStart_blank s rest :
  blank s -> trimStart (s ++ rest) = trimStart rest.
Proof.
  induction 1 as [| c s Hc _ IH]; [reflexivity |].
  simpl. rewrite Hc. exact IH.
Qed.

Lemma trimStart_head c s :
  is_white_space c = false -> trimStart (c :: s) = c :: s.
Proof. intros H. simpl. rewrite H. reflexivity. Qed.

Lemma trimStart_idem s : trimStart (trimStart s) = trimStart s.
Proof.
  induction s as [| c s IH]; [reflexivity |].
  simpl. destruct (is_white_space c) eqn:E; [exact IH |].
  apply trimStart_head. exact E.
Qed.

Lemma trimStart_last s c :
  is_white_space c = false ->
  exists s', trimStart (s ++ [c]) = s' ++ [c].
Proof.
  intros Hc. induction s as [| x s IH].
  - exists []. apply trimStart_head. exact Hc.
  - simpl. destruct (is_white_space x); [exact IH |].
    exists (x :: s). reflexivity.
Qed.

Lemma trim_tidy s : tidy (trim s).
Proof.
  unfold tidy, trim, trimEnd. split.
  - destruct (trimStart s) as [| c t] eqn:E; [reflexivity |].
    assert (Hc : is_white_space c = false).
    { destruct (is_white_space c) eqn:Ec; [| reflexivity].
      pose proof (trimStart_idem s) as Hi. rewrite E in Hi.
      simpl in Hi. rewrite Ec in Hi.
      assert (Hlen : (length (trimStart t) <= length t)%nat).
      { clear. induction t as [| x t IH]; [simpl; lia |].
        simpl. destruct (is_white_space x); simpl; lia. }
      rewrite Hi in Hlen. simpl in Hlen. lia. }
    simpl rev. destruct (trimStart_last (rev t) c Hc) as (s' & ->).
    rewrite rev_app_distr. simpl. rewrite Hc. reflexivity.
  - rewrite rev_involutive, trimStart_idem. reflexivity.
Qed.

Lemma trim_of_tidy s : tidy s -> trim s = s.
Proof. intros [H1 H2]. unfold trim. rewrite H1. exact H2. Qed.

Lemma trim_idem s : trim (trim s) = trim s.
Proof. apply trim_of_tidy, trim_tidy. Qed.

Lemma trim_padded piece origin :
  padded piece origin -> tidy origin -> trim piece = origin.
Proof.
  intros (before & after & -> & Hb & Ha) [H1 H2].
  unfold trim. rewrite trimStart_blank by exact Hb.
  destruct origin as [| c t].
  - simpl. rewrite <- (app_nil_r after), trimStart_blank by exact Ha.
    reflexivity.
  - assert (Hc : is_white_space c = false).
    { simpl in H1. destruct (is_white_space c); [| reflexivity].
      exfalso.
      assert (Hlen : (length (trimStart t) <= length t)%nat).
      { clear. induction t as [| x t IH]; [simpl; lia |].
        simpl. destruct (is_white_space x); simpl; lia. }
      rewrite H1 in Hlen. simpl in Hlen. lia. }
    change ((c :: t) ++ after) with (c :: (t ++ after)).
    rewrite trimStart_head by exact Hc.
    change (c :: t ++ after) with ((c :: t) ++ after).
    unfold trimEnd. rewrite rev_app_distr, trimStart_blank.
    + exact H2.
    + unfold blank in *. apply Forall_rev. exact Ha.
Qed.

(** ** Search again *)

(** X18. The keyword of a reply is the normalised keyword: it has no
    white space at either end, 2 to 30 code units and none of the
    forbidden characters, and searching for it right away gives the same
    reply. *)
Theorem keyword_is_normalised :
  forall (keyword : jsstring) (st st' : Store) (r : Search.Response),
    searchUsersByKeyword keyword st = (inr r, st') ->
    let k := Search.keyword r in
    tidy k
    /\ 2 <= str_length k <= 30
    /\ ~ has_forbidden k
    /\ exists st'', searchUsersByKeyword k st' = (inr r, st'').
Proof.
  intros keyword st st' r Hrun.
  pose proof Hrun as Hret. apply searchUsersByKeyword_returns in Hret.
  destruct Hret as (Hnone & -> & ->).
  cbn [Search.keyword]. cbv zeta.
  split; [apply trim_tidy |].
  apply first_failing_none in Hnone. destruct Hnone as [Hlen Hclean].
  split; [exact Hlen |]. split; [exact Hclean |].
  revert Hrun. rewrite !searchUsersByKeyword_run.
  unfold search_args, search_rows. rewrite !trim_idem.
  destruct (first_failing keyword_rules (trim keyword)); [discriminate |].
  cbv zeta. fold (search_args keyword).
  change (faults (logged (CallFindMany (search_args keyword)) st))
    with (faults st).
  destruct (faults st (CallFindMany (search_args keyword))); [discriminate |].
  intros _. eexists. reflexivity.
Qed.

Lemma keyword_is_normalised_witness :
  tidy (lit "bo") /\ 2 <= str_length (lit "bo") <= 30.
Proof.
  destruct (keyword_is_normalised (lit " bo ") (sample_store three_rows)
              (logged (CallFindMany (search_args (lit " bo ")))
                 (sample_store three_rows))
              {| Search.searchResults :=
                   map (project search_select) [sample_user "Bob" 50 (Some 200)];
                 Search.totalCount := Int 1;
                 Search.keyword := lit "bo" |})
    as (Ht & Hl & _).
  - vm_compute. reflexivity.
  - split; [exact Ht | exact Hl].
Defined.

(** ** The import script *)

Lemma digits_nonempty d : d <> Decimal.Nil -> digits d <> [].
Proof. destruct d; [contradiction | ..]; discriminate. Qed.

Lemma String_of_nonneg n :
  0 <= n ->
  exists d, d <> Decimal.Nil /\ String_of_int n = digits d
            /\ Z.of_N (Pos.of_uint d) = n.
Proof.
  intros Hn. unfold String_of_int, Z.to_int. destruct n as [| p | p].
  - exists (Decimal.D0 Decimal.Nil). repeat split. discriminate.
  - exists (Pos.to_uint p). split; [apply DecimalPos.Unsigned.to_uint_nonnil |].
    split; [reflexivity |]. rewrite DecimalPos.Unsigned.of_to. reflexivity.
  - lia.
Qed.

(** X19. Thousands separators are ignored: a text cell that, once its
    commas are dropped, is the decimal writing of [n] from 0 to
    [MAX_SAFE_INTEGER] parses to [n] ("1,000" is 1000). *)
Theorem parseNumber_separators :
  forall (s : jsstring) (n : Z),
    0 <= n <= MAX_SAFE_INTEGER ->
    remove_all 44%N s = String_of_int n ->
    ImportUsers.parseNumber (ImportUsers.Str s) = Some (Int n).
Proof.
  intros s n [Hn _] Hs.
  destruct (String_of_nonneg n Hn) as (d & Hd & Hdig & Hval).
  assert (Hne : s <> []).
  { intros ->. simpl in Hs. rewrite Hdig in Hs. symmetry in Hs.
    exact (digits_nonempty d Hd Hs). }
  destruct s as [| c s]; [contradiction |].
  unfold ImportUsers.parseNumber. cbv zeta.
  rewrite Hs, parseInt_String_of_int. reflexivity.
Qed.

Lemma parseNumber_separators_witness :
  ImportUsers.parseNumber (ImportUsers.Str (lit "1,234,567"))
  = Some (Int 1234567).
Proof.
  apply (parseNumber_separators (lit "1,234,567") 1234567);
    [unfold MAX_SAFE_INTEGER; lia | reflexivity].
Defined.

(** X20. The level stored for a row is never null, NaN or 0: it is 1
    whenever the cell is absent, empty, does not parse or holds 0, and a
    text cell whose digits, commas dropped, write an integer up to
    [MAX_SAFE_INTEGER] in size gives an integer other than 0 of that
    range. *)
Theorem level_of_cell :
  forall (cell : ImportUsers.Cell),
    ImportUsers.level_of cell <> NaN
    /\ ImportUsers.level_of cell <> Int 0
    /\ (ImportUsers.parseNumber cell = None
        \/ ImportUsers.parseNumber cell = Some (Int 0) ->
        ImportUsers.level_of cell = Int 1)
    /\ (forall s, cell = ImportUsers.Str s ->
        safe_digits (Some (remove_all 44%N s)) ->
        exists z, ImportUsers.level_of cell = Int z /\ z <> 0
                  /\ Z.abs z <= MAX_SAFE_INTEGER).
Proof.
  intros cell. unfold ImportUsers.level_of.
  assert (Hor : forall n, n <> NaN ->
                  or_else n (Int 1) <> NaN /\ or_else n (Int 1) <> Int 0).
  { intros [z | |] Hn; unfold or_else; simpl.
    - destruct (z =? 0) eqn:E; simpl; [split; discriminate |].
      apply Z.eqb_neq in E. split; [discriminate | congruence].
    - contradiction.
    - split; discriminate. }
  assert (Hnan : ImportUsers.parseNumber cell <> Some NaN).
  { destruct cell as [| [| c s] | n]; unfold ImportUsers.parseNumber;
      cbv beta iota zeta; try discriminate.
    - destruct (parseInt (Some (remove_all 44%N (c :: s)))) as [z | |];
        simpl; discriminate.
    - destruct n; simpl; discriminate. }
  split; [| split; [| split]].
  - destruct (ImportUsers.parseNumber cell) as [n |]; simpl; [| discriminate].
    apply Hor. congruence.
  - destruct (ImportUsers.parseNumber cell) as [n |]; simpl; [| discriminate].
    apply Hor. congruence.
  - intros [-> | ->]; reflexivity.
  - assert (H1 : Z.abs 1 <= MAX_SAFE_INTEGER)
      by (unfold MAX_SAFE_INTEGER; lia).
    intros s -> Hsafe. destruct s as [| c s]; unfold ImportUsers.parseNumber;
      cbv beta iota zeta.
    { exists 1. split; [reflexivity | split; [lia | exact H1]]. }
    destruct (parseInt_int_or_nan (Some (remove_all 44%N (c :: s))))
      as [(z & Hz) | Hz]; rewrite Hz; simpl.
    + unfold or_else. simpl. destruct (z =? 0) eqn:E; simpl.
      * exists 1. split; [reflexivity | split; [lia | exact H1]].
      * apply Z.eqb_neq in E. exists z. auto.
    + exists 1. split; [reflexivity | split; [lia | exact H1]].
Qed.

Lemma level_of_cell_witness :
  exists z,
    ImportUsers.level_of (ImportUsers.Str (lit "1,250")) = Int z
    /\ z <> 0 /\ Z.abs z <= MAX_SAFE_INTEGER.
Proof.
  destruct (level_of_cell (ImportUsers.Str (lit "1,250")))
    as (_ & _ & _ & H).
  apply (H (lit "1,250") eq_refl).
  intros z Hz. vm_compute in Hz. injection Hz as <-.
  unfold MAX_SAFE_INTEGER. simpl. lia.
Defined.

(** ** Configuration *)

(** X21. The configuration never yields an unusable value: whatever the
    environment, the origin is not empty, the port is neither NaN nor 0,
    and credentials are on, also when the variable says otherwise.  When
    the digits of the port variable write an integer up to
    [MAX_SAFE_INTEGER] in size, the port is an integer other than 0 of
    that range: the parsed variable, or 3000 when it is missing, does
    not parse or is 0. *)
Theorem configuration_defaults :
  forall (env : Configuration.Env),
    let c := Configuration.configuration env in
    Configuration.CORS_ORIGIN c <> []
    /\ Configuration.CORS_CREDENTIALS c = true
    /\ Configuration.PORT c <> NaN
    /\ Configuration.PORT c <> Int 0
    /\ (safe_digits (Configuration.env_PORT env) ->
        exists z, Configuration.PORT c = Int z /\ z <> 0
          /\ Z.abs z <= MAX_SAFE_INTEGER
          /\ (parseInt (Configuration.env_PORT env) = Int z
              \/ (z = 3000
                  /\ (parseInt (Configuration.env_PORT env) = NaN
                      \/ parseInt (Configuration.env_PORT env) = Int 0))))
    /\ (forall o, Configuration.env_CORS_ORIGIN env = Some o -> o <> [] ->
        Configuration.CORS_ORIGIN c = o).
Proof.
  intros env c. subst c. unfold Configuration.configuration.
  cbn [Configuration.CORS_ORIGIN Configuration.CORS_CREDENTIALS
       Configuration.PORT].
  destruct (or_else_parseInt (Configuration.env_PORT env) 3000 ltac:(lia))
    as (z & Hz & Hz0 & Hfrom).
  split; [| split; [| split; [| split; [| split]]]].
  - destruct (Configuration.env_CORS_ORIGIN env) as [[| x o] |]; discriminate.
  - apply orb_true_r.
  - rewrite Hz. discriminate.
  - rewrite Hz. congruence.
  - intros Hsafe. exists z. split; [exact Hz |]. split; [exact Hz0 |].
    split; [| exact Hfrom].
    destruct Hfrom as [Hp | [-> _]];
      [apply Hsafe, Hp | unfold MAX_SAFE_INTEGER; lia].
  - intros o -> Ho. destruct o; [contradiction | reflexivity].
Qed.

Lemma configuration_defaults_witness :
  exists z,
    Configuration.PORT
      (Configuration.configuration
         {| Configuration.env_CORS_ORIGIN := None;
            Configuration.env_CORS_CREDENTIALS := None;
            Configuration.env_PORT := Some (lit "8080");
            Configuration.env_DATABASE_URL := None |})
    = Int z /\ z <> 0 /\ Z.abs z <= MAX_SAFE_INTEGER.
Proof.
  destruct (configuration_defaults
              {| Configuration.env_CORS_ORIGIN := None;
                 Configuration.env_CORS_CREDENTIALS := None;
                 Configuration.env_PORT := Some (lit "8080");
                 Configuration.env_DATABASE_URL := None |})
    as (_ & _ & _ & _ & H & _).
  destruct H as (z & Hz & Hz0 & Hsafe & _).
  - intros z Hz. vm_compute in Hz. injection Hz as <-.
    unfold MAX_SAFE_INTEGER. simpl. lia.
  - exists z. auto.
Defined.

(** ** The origins of CORS *)

Lemma split_cons sep s :
  exists piece pieces, split sep s = piece :: pieces.
Proof.
  induction s as [| c s (piece & pieces & IH)]; [simpl; eauto |].
  simpl. destruct (c =? sep)%N; [eauto |]. rewrite IH. eauto.
Qed.

Lemma split_whole sep s : ~ In sep s -> split sep s = [s].
Proof.
  induction s as [| c s IH]; intros H; [reflexivity |].
  simpl. replace (c =? sep)%N with false
    by (symmetry; apply N.eqb_neq; intros ->; apply H; left; reflexivity).
  rewrite IH; [reflexivity |]. intros Hin. apply H. right. exact Hin.
Qed.

Lemma split_first sep s rest :
  ~ In sep s -> split sep (s ++ sep :: rest) = s :: split sep rest.
Proof.
  induction s as [| c s IH]; intros H.
  - simpl. rewrite N.eqb_refl. reflexivity.
  - simpl. replace (c =? sep)%N with false
      by (symmetry; apply N.eqb_neq; intros ->; apply H; left; reflexivity).
    rewrite IH; [reflexivity |]. intros Hin. apply H. right. exact Hin.
Qed.

Lemma split_pieces sep s :
  Forall (fun piece => ~ In sep piece) (split sep s).
Proof.
  induction s as [| c s IH]; [simpl; auto |].
  simpl. destruct (c =? sep)%N eqn:E; [auto |].
  destruct (split sep s) as [| piece pieces]; [constructor; [| constructor] |].
  - intros [-> | []]. rewrite N.eqb_refl in E. discriminate.
  - inversion IH as [| ? ? Hp Hps]; subst. constructor; [| exact Hps].
    intros [-> | Hin]; [rewrite N.eqb_refl in E; discriminate | auto].
Qed.

Lemma split_joined pieces :
  pieces <> [] ->
  Forall (fun piece => ~ In 44%N piece) pieces ->
  split 44%N (joined pieces) = pieces.
Proof.
  intros Hne Hall. induction Hall as [| piece rest Hp Hrest IH];
    [contradiction |].
  destruct rest as [| next rest].
  - simpl. apply split_whole. exact Hp.
  - change (joined (piece :: next :: rest))
      with (piece ++ 44%N :: joined (next :: rest)).
    rewrite split_first by exact Hp. f_equal. apply IH. discriminate.
Qed.

Lemma blank_no_comma s : blank s -> ~ In 44%N s.
Proof.
  intros H Hin. unfold blank in H. rewrite List.Forall_forall in H.
  specialize (H _ Hin). discriminate.
Qed.

(** X22. The list of origins is read back from its writing: origins
    that have no comma and no white space at either end, written with
    commas between them and any white space around each, are split and
    trimmed into the very same list. *)
Theorem corsOrigins_reads_back :
  forall (pieces origins : list jsstring),
    origins <> [] ->
    Forall2 padded pieces origins ->
    Forall (fun o => tidy o /\ ~ In 44%N o) origins ->
    Main.corsOrigins (joined pieces) = origins.
Proof.
  intros pieces origins Hne Hpad Hall.
  assert (Hpieces : Forall (fun piece => ~ In 44%N piece) pieces).
  { clear Hne. induction Hpad as [| piece origin ps os Hp _ IH];
      [constructor |].
    inversion Hall as [| ? ? [_ Ho] Hos]; subst.
    constructor; [| apply IH; exact Hos].
    destruct Hp as (before & after & -> & Hb & Ha).
    intros Hin. apply in_app_or in Hin. destruct Hin as [Hin | Hin].
    - exact (blank_no_comma _ Hb Hin).
    - apply in_app_or in Hin. destruct Hin as [Hin | Hin]; [auto |].
      exact (blank_no_comma _ Ha Hin). }
  unfold Main.corsOrigins. rewrite split_joined.
  - clear Hne Hpieces. induction Hpad as [| piece origin ps os Hp _ IH];
      [reflexivity |].
    inversion Hall as [| ? ? [Ht _] Hos]; subst.
    simpl. rewrite (trim_padded _ _ Hp Ht). f_equal. apply IH. exact Hos.
  - intros ->. inversion Hpad. subst. contradiction.
  - exact Hpieces.
Qed.

Lemma corsOrigins_reads_back_witness :
  Main.corsOrigins (lit "http://a.test , http://b.test")
  = [lit "http://a.test"; lit "http://b.test"].
Proof.
  apply (corsOrigins_reads_back
           [lit "http://a.test "; lit " http://b.test"]
           [lit "http://a.test"; lit "http://b.test"]).
  - discriminate.
  - constructor.
    + exists [], (lit " "). split; [reflexivity |].
      split; [constructor | repeat constructor].
    + constructor; [| constructor].
      exists (lit " "), []. split; [reflexivity |].
      split; [repeat constructor | constructor].
  - constructor.
    + split; [split; reflexivity |].
      intros Hin; vm_compute in Hin; intuition discriminate.
    + constructor; [| constructor].
      split; [split; reflexivity |].
      intros Hin; vm_compute in Hin; intuition discriminate.
Defined.

(** X23. Whatever it is given, the list of origins is not empty, and
    none of its origins has a comma or white space at either end. *)
Theorem corsOrigins_are_tidy :
  forall (origins : jsstring),
    Main.corsOrigins origins <> []
    /\ Forall (fun o => tidy o /\ ~ In 44%N o)
         (Main.corsOrigins origins).
Proof.
  intros origins. unfold Main.corsOrigins. split.
  - destruct (split_cons 44%N origins) as (piece & pieces & ->). discriminate.
  - pose proof (split_pieces 44%N origins) as Hp.
    induction Hp as [| piece pieces Hpiece _ IH]; [constructor |].
    simpl. constructor; [| exact IH].
    split; [apply trim_tidy |].
    intros Hin. apply Hpiece. unfold trim, trimEnd in Hin.
    apply in_rev in Hin.
    assert (Hsub : forall (c : N) s, In c (trimStart s) -> In c s).
    { clear. intros c s. induction s as [| x s IH]; [auto |].
      simpl. destruct (is_white_space x); [right; auto | auto]. }
    apply Hsub in Hin. apply in_rev in Hin. apply Hsub in Hin. exact Hin.
Qed.
